(** * M6_Potok: sequential and threaded execution of a batch of tasks

    A shallow embedding of the Python scripts [level3.py] (fetching web
    pages one after the other or with one thread per link) and
    [level4.py] (processing of a spreadsheet file), and the properties of
    the fan-out runner they implement.

    Python values are modelled as follows.
    - [str] is [string]; a literal stands for its UTF-8 bytes.
    - A call either returns a value or raises an exception ([outcome]).
    - Code with effects is a function from the state it acts on (the log
      of HTTP requests, the file system) to the new state and an outcome
      ([M]).
    - The threads of [run_parallel] are a transition system: the scheduler
      picks, at each step, the main thread or one of the workers. *)

From Stdlib Require Import ZArith.
From stdpp Require Import base option list strings gmap.

(** ** Python outcomes, exceptions and effects *)

Module Py.

(** The exception classes the scripts can meet. The first four are
    [requests.RequestException] and its subclasses; [KeyboardInterrupt]
    derives from [BaseException] only. *)
Inductive exn_class :=
  | ReqTimeout
  | ReqConnectionError
  | ReqHTTPError
  | ReqException
  | OSError
  | OtherException
  | KeyboardInterrupt.

(** An exception object: its class and what [str(e)] gives. *)
Record exn := Exn { exn_class_of : exn_class; exn_str : string }.

(** [isinstance(e, requests.RequestException)] *)
Definition is_RequestException (e : exn) : bool :=
  match exn_class_of e with
  | ReqTimeout | ReqConnectionError | ReqHTTPError | ReqException => true
  | _ => false
  end.

(** [isinstance(e, Exception)] *)
Definition is_Exception (e : exn) : bool :=
  match exn_class_of e with
  | KeyboardInterrupt => false
  | _ => true
  end.

Inductive outcome (A : Type) :=
  | Returned (a : A)
  | Raised (e : exn).
Arguments Returned {A} a.
Arguments Raised {A} e.

(** The values of the calls that returned. *)
Definition returned {A} (o : outcome A) : list A :=
  match o with
  | Returned a => [a]
  | Raised _ => []
  end.

(** A computation acting on a state of type [S]. The state reached when
    an exception is raised is kept: effects are not rolled back. *)
Definition M (S A : Type) : Type := S -> S * outcome A.

Definition ret {S A} (a : A) : M S A := fun s => (s, Returned a).

Definition raise {S A} (e : exn) : M S A := fun s => (s, Raised e).

Definition bind {S A B} (m : M S A) (k : A -> M S B) : M S B :=
  fun s =>
    match m s with
    | (s', Returned a) => k a s'
    | (s', Raised e) => (s', Raised e)
    end.

(** [try: body except C as e: handler(e)], where [catches e] says whether
    [e] is an instance of [C]. *)
Definition try_except {S A} (body : M S A) (catches : exn -> bool)
    (handler : exn -> M S A) : M S A :=
  fun s =>
    match body s with
    | (s', Returned a) => (s', Returned a)
    | (s', Raised e) => if catches e then handler e s' else (s', Raised e)
    end.

End Py.

Import Py.

Notation "'do' x <- m ;; k" := (Py.bind m (fun x => k))
  (at level 10, x name, m at level 99, k at level 200,
   format "'do'  x  <-  m  ;;  '/' k").

(** ** level3.py: fetching pages *)

Module Level3.

(** What [requests.get] returns: the script reads only [.text]. *)
Record response := Response { status_code : Z; text : string }.

(** One call of [requests.get(url, timeout=...)]. *)
Record request := Request { url : string; timeout : Z }.

Section Fetch.

(** The network: what a GET of a link with a given timeout comes to. The
    same link gives the same outcome each time it is fetched. *)
Variable network : string -> Z -> outcome response.

(** [requests.get(link, timeout=t)]: the call is made (and logged), and
    what it gives is the network's answer. *)
Definition requests_get (link : string) (t : Z) : M (list request) response :=
  fun log => (log ++ [Request link t], network link t).

(** [f"Ошибка при загрузке {link}: {e}"] *)
Definition error_message (link : string) (e : exn) : string :=
  "Ошибка при загрузке " +:+ link +:+ ": " +:+ exn_str e.

Definition get_html (link : string) : M (list request) string :=
  try_except
    (do response <- requests_get link 5;;
     ret (text response))
    is_RequestException
    (fun e => ret (error_message link e)).

(** The [for link in links] loop of [run_sequential], [results] being the
    list built so far. *)
Fixpoint run_sequential_loop (links : list string) (results : list string)
    : M (list request) (list string) :=
  match links with
  | [] => ret results
  | link :: rest =>
      do result <- get_html link;;
      run_sequential_loop rest (results ++ [result])
  end.

Definition run_sequential (links : list string) : M (list request) (list string) :=
  run_sequential_loop links [].

(** The list comprehension [[get_html(link) for link in links]]. *)
Fixpoint list_comprehension {S A B} (f : A -> M S B) (l : list A) : M S (list B) :=
  match l with
  | [] => ret []
  | a :: l' =>
      do b <- f a;;
      do bs <- list_comprehension f l';;
      ret (b :: bs)
  end.

(** *** The threads of [run_parallel] *)

(** Where a worker thread is in [results.append(get_html(link))]. *)
Inductive thread :=
  | Fetching (link : string)      (* started, [get_html(link)] not yet returned *)
  | Appending (result : string)   (* [get_html] returned, [append] not yet done *)
  | Terminated.                   (* the thread is over *)

(** Where the main thread is in the body of [run_parallel]. *)
Inductive main_pc :=
  | Spawning (rest : list string)    (* first loop, the links still to start *)
  | Joining (k : nat)                (* second loop, about to join [threads[k]] *)
  | Finished (value : list string).  (* [return results] done *)

Record state := State {
  pc : main_pc;
  threads : list thread;      (* the local list [threads], by creation order *)
  results : list string;      (* the shared list [results] *)
  log : list request          (* the requests made so far *)
}.

Definition init (links : list string) : state :=
  State (Spawning links) [] [] [].

(** One step of the main thread. [t.join()] can only go on once thread
    [t] is over. *)
Definition main_step (s : state) : option state :=
  match pc s with
  | Spawning (link :: rest) =>
      Some (State (Spawning rest) (threads s ++ [Fetching link]) (results s) (log s))
  | Spawning [] =>
      Some (State (Joining 0) (threads s) (results s) (log s))
  | Joining k =>
      match threads s !! k with
      | Some Terminated => Some (State (Joining (S k)) (threads s) (results s) (log s))
      | Some _ => None
      | None => Some (State (Finished (results s)) (threads s) (results s) (log s))
      end
  | Finished _ => None
  end.

(** One step of the worker [tid]: the call of [get_html], then the
    [append], which the interpreter does in one piece. An exception that
    leaves [worker] ends the thread, and nothing is appended. *)
Definition worker_step (tid : nat) (s : state) : option state :=
  match threads s !! tid with
  | Some (Fetching link) =>
      match get_html link (log s) with
      | (log', Returned result) =>
          Some (State (pc s) (<[tid := Appending result]> (threads s)) (results s) log')
      | (log', Raised _) =>
          Some (State (pc s) (<[tid := Terminated]> (threads s)) (results s) log')
      end
  | Some (Appending result) =>
      Some (State (pc s) (<[tid := Terminated]> (threads s)) (results s ++ [result]) (log s))
  | Some Terminated => None
  | None => None
  end.

(** The choice of the scheduler. *)
Inductive action :=
  | Main
  | Worker (tid : nat).

Definition step (a : action) (s : state) : option state :=
  match a with
  | Main => main_step s
  | Worker tid => worker_step tid s
  end.

(** Running a schedule; [None] when it picks a thread that cannot move. *)
Fixpoint exec (sched : list action) (s : state) : option state :=
  match sched with
  | [] => Some s
  | a :: sched' =>
      match step a s with
      | Some s' => exec sched' s'
      | None => None
      end
  end.

Definition returned_value (s : state) : option (list string) :=
  match pc s with
  | Finished value => Some value
  | _ => None
  end.

(** [run_parallel(links)] under a schedule: the list it returns, if the
    schedule is one of its runs and takes it to its [return]. *)
Definition run_parallel (links : list string) (sched : list action)
    : option (list string) :=
  s ← exec sched (init links); returned_value s.

(** The order in which the workers did their [append] along a schedule. *)
Fixpoint completion_order (sched : list action) (s : state) : list nat :=
  match sched with
  | [] => []
  | a :: sched' =>
      match step a s with
      | Some s' =>
          match a with
          | Worker tid =>
              match threads s !! tid with
              | Some (Appending _) => tid :: completion_order sched' s'
              | _ => completion_order sched' s'
              end
          | Main => completion_order sched' s'
          end
      | None => []
      end
  end.

(** *** What is used to state and prove the properties *)

(** What [get_html(link)] comes to, whatever the requests made before. *)
Definition fetch_outcome (link : string) : outcome string :=
  match network link 5 with
  | Returned response => Returned (text response)
  | Raised e =>
      if is_RequestException e then Returned (error_message link e) else Raised e
  end.

(** [v] is the value [get_html(link)] returns. *)
Definition result_for (link : string) (v : string) : Prop :=
  forall log, (get_html link log).2 = Returned v.

(** The fetch of [link] either succeeds or fails with an exception of
    [requests]: connection errors, timeouts, invalid URLs and the like. *)
Definition request_failure_only (link : string) : Prop :=
  forall e, network link 5 = Raised e -> is_RequestException e = true.

(** The values a list of links contributes: one for each link whose
    [get_html] returns. *)
Definition values_of (links : list string) : list string :=
  links ≫= (fun link => returned (fetch_outcome link)).

(** The value a thread has still to append. *)
Definition pending_of (t : thread) : list string :=
  match t with
  | Fetching link => returned (fetch_outcome link)
  | Appending result => [result]
  | Terminated => []
  end.

(** The values of the links not yet handed to a thread. *)
Definition unstarted (p : main_pc) : list string :=
  match p with
  | Spawning rest => values_of rest
  | _ => []
  end.

(** Every value is in [results], held by a thread, or not yet started. *)
Definition accounted (s : state) : list string :=
  results s ++ (threads s ≫= pending_of) ++ unstarted (pc s).

(** The invariant of [run_parallel(links)]: no value is lost or made up,
    the threads already joined are over, and the list returned is
    [results] once every thread is over. *)
Definition invariant (links : list string) (s : state) : Prop :=
  accounted s ≡ₚ values_of links /\
  match pc s with
  | Spawning _ => True
  | Joining k => Forall (fun t => t = Terminated) (take k (threads s))
  | Finished value =>
      value = results s /\ Forall (fun t => t = Terminated) (threads s)
  end.

(** Thread [tid] works on [links[tid]]. *)
Definition thread_of_link (links : list string) (tid : nat) (t : thread) : Prop :=
  match t with
  | Fetching link => links !! tid = Some link
  | Appending result =>
      exists link, links !! tid = Some link /\ fetch_outcome link = Returned result
  | Terminated => True
  end.

Definition threads_by_position (links : list string) (s : state) : Prop :=
  (forall tid t, threads s !! tid = Some t -> thread_of_link links tid t) /\
  (forall rest, pc s = Spawning rest -> drop (length (threads s)) links = rest).

(** The steps a thread has still to make. *)
Definition thread_fuel (t : thread) : nat :=
  match t with
  | Fetching _ => 2
  | Appending _ => 1
  | Terminated => 0
  end.

(** A bound on the number of steps left before every thread is over and
    the main thread has returned. *)
Definition fuel (s : state) : nat :=
  sum_list_with thread_fuel (threads s) +
  match pc s with
  | Spawning rest => 4 * length rest + length (threads s) + 2
  | Joining k => (length (threads s) - k) + 1
  | Finished _ => 0
  end.

End Fetch.

End Level3.

(** ** level4.py: adding a column to a spreadsheet *)

Module Level4.

(** Arithmetic on 64-bit integers goes round without a word:
    [wrap64 z] is the number between [-2^63] and [2^63 - 1] that differs
    from [z] by a multiple of [2^64]. *)
Definition wrap64 (z : Z) : Z := ((z + 2 ^ 63) mod 2 ^ 64 - 2 ^ 63)%Z.

(** The 64-bit integers. *)
Definition int64 (z : Z) : Prop := (- 2 ^ 63 <= z < 2 ^ 63)%Z.

(** A column as [pandas] holds it: of the dtype [int64], with its cells,
    which are 64-bit integers, or of another dtype ([float64] for numbers
    with decimals or blanks, [object] for text, ...), with its cells as
    they are written. *)
Inductive series :=
  | Int64 (cells : list Z)
  | Other (dtype : string) (cells : list string).

(** What [series.sum()] gives: a 64-bit integer, or something else (a
    float, a string, ...) as it is written. *)
Inductive scalar :=
  | SInt (z : Z)
  | SOther (repr : string).

(** A table as [pandas] holds it: the column labels in their order, each
    with its column, and the number of rows [len(df)]. *)
Record DataFrame := Frame { nrows : nat; columns : list (string * series) }.

(** A file on disk: its size in bytes, what [pd.read_excel] makes of it
    (a table, or the exception raised on a file that is not a workbook),
    and the exception writing to it raises, if any. *)
Record file := File {
  file_size : Z;
  read_gives : outcome DataFrame;
  write_raises : option exn
}.

Abbreviation filesystem := (gmap string file).

(** The dictionary [calculate_new_column] returns on success. *)
Record summary := Summary {
  filename_of : string;
  columns_added : list string;
  total_sum : scalar;
  rows_processed : nat;
  status : string
}.

(** The two kinds of value [calculate_new_column] returns. *)
Inductive value :=
  | VStr (s : string)
  | VDict (d : summary).

(** [isinstance(v, dict)] *)
Definition is_dict (v : value) : bool :=
  match v with
  | VDict _ => true
  | VStr _ => false
  end.

Definition no_such_file (filename : string) : exn :=
  Exn OSError ("[Errno 2] No such file or directory: '" +:+ filename +:+ "'").

(** [os.path.exists(filename)] *)
Definition os_path_exists (filename : string) : M filesystem bool :=
  fun fs => (fs, Returned (bool_decide (is_Some (fs !! filename)))).

(** [os.path.getsize(filename)] *)
Definition os_path_getsize (filename : string) : M filesystem Z :=
  fun fs =>
    match fs !! filename with
    | Some f => (fs, Returned (file_size f))
    | None => (fs, Raised (no_such_file filename))
    end.

(** [pd.read_excel(filename, engine="openpyxl")] *)
Definition pd_read_excel (filename : string) : M filesystem DataFrame :=
  fun fs =>
    match fs !! filename with
    | Some f => (fs, read_gives f)
    | None => (fs, Raised (no_such_file filename))
    end.

(** [list(df.columns)] *)
Definition labels (df : DataFrame) : list string := (columns df).*1.

(** [name in df.columns] *)
Definition has_column (name : string) (df : DataFrame) : bool :=
  bool_decide (name ∈ labels df).

(** [df[name]] *)
Definition getitem {S} (df : DataFrame) (name : string) : M S series :=
  match list_find (fun c => c.1 = name) (columns df) with
  | Some (_, c) => ret c.2
  | None => raise (Exn OtherException ("'" +:+ name +:+ "'"))
  end.

(** [df[name] = cells]: the column is replaced where it stands, or added
    as the last one. *)
Definition setitem (df : DataFrame) (name : string) (cells : series) : DataFrame :=
  match list_find (fun c => c.1 = name) (columns df) with
  | Some (i, _) => Frame (nrows df) (<[i := (name, cells)]> (columns df))
  | None => Frame (nrows df) (columns df ++ [(name, cells)])
  end.

(** An operation of [pandas] on columns: its result, or the exception it
    raises ([TypeError] and the like, of the class [Exception]), given by
    its message. *)
Definition pandas {S A} (r : A + string) : M S A :=
  match r with
  | inl a => ret a
  | inr msg => raise (Exn OtherException msg)
  end.

Section Process.

(** What the platform and the libraries decide: [os.path.basename]; how
    a list of labels is printed in an f-string; the size of the workbook
    written for a table; the exception, if any, that writing a file that
    is not there yet raises (a name the engine does not accept, a
    directory that cannot be written); and what the product and the sum
    come to on columns that are not of the dtype [int64]. *)
Variable basename : string -> string.
Variable repr_labels : list string -> string.
Variable workbook_size : DataFrame -> Z.
Variable create_raises : string -> option exn.
Variable other_mul : series -> series -> series + string.
Variable other_sum : series -> scalar + string.

(** [a * b] on two columns of one table: cell by cell, in 64-bit
    arithmetic when both are of the dtype [int64]. *)
Definition series_mul (a b : series) : series + string :=
  match a, b with
  | Int64 x, Int64 y => inl (Int64 (zip_with (fun p q => wrap64 (p * q)) x y))
  | _, _ => other_mul a b
  end.

(** [series.sum()], in 64-bit arithmetic on a column of the dtype
    [int64]. *)
Definition series_sum (a : series) : scalar + string :=
  match a with
  | Int64 x => inl (SInt (foldr (fun c acc => wrap64 (c + acc)) 0%Z x))
  | Other _ _ => other_sum a
  end.

(** The exception [df.to_excel(filename, ...)] raises, if any. *)
Definition write_failure (fs : filesystem) (filename : string) : option exn :=
  match fs !! filename with
  | Some f => write_raises f
  | None => create_raises filename
  end.

(** [df.to_excel(filename, index=False, engine='openpyxl')] *)
Definition to_excel (df : DataFrame) (filename : string) : M filesystem unit :=
  fun fs =>
    match write_failure fs filename with
    | Some e => (fs, Raised e)
    | None =>
        (<[filename := File (workbook_size df) (Returned df) None]> fs, Returned tt)
    end.

Definition nonexistent_message (filename : string) : string :=
  "❌ Файл не существует: '" +:+ filename +:+ "'".

Definition empty_message (filename : string) : string :=
  "❌ Файл пустой: '" +:+ filename +:+ "'".

Definition missing_columns_message (filename : string) (df : DataFrame) : string :=
  "❌ В файле '" +:+ basename filename
  +:+ "' отсутствуют колонки Price и/или Quantity. Доступные колонки: "
  +:+ repr_labels (labels df).

Definition processing_error_message (filename : string) (e : exn) : string :=
  "❌ Ошибка при обработке файла '" +:+ basename filename +:+ "': " +:+ exn_str e.

(** The calls of [print] write to the standard output only and are left
    out: they do not bear on the value returned. *)
Definition calculate_new_column (filename : string) : M filesystem value :=
  try_except
    (do found <- os_path_exists filename;;
     if negb found then ret (VStr (nonexistent_message filename)) else
     do size <- os_path_getsize filename;;
     if (size =? 0)%Z then ret (VStr (empty_message filename)) else
     do df <- pd_read_excel filename;;
     if negb (has_column "Price" df) || negb (has_column "Quantity" df)
     then ret (VStr (missing_columns_message filename df)) else
     do price <- getitem df "Price";;
     do quantity <- getitem df "Quantity";;
     do product <- pandas (series_mul price quantity);;
     let df := setitem df "Total" product in
     do saved <- to_excel df filename;;
     do total <- getitem df "Total";;
     do total_sum <- pandas (series_sum total);;
     ret (VDict (Summary filename ["Total"] total_sum (nrows df) "успешно")))
    is_Exception
    (fun e => ret (VStr (processing_error_message filename e))).

(** The faults of the input file the function reports by itself, each
    with the message it returns. *)
Inductive input_fault (fs : filesystem) (filename : string) : string -> Prop :=
  | fault_nonexistent :
      fs !! filename = None ->
      input_fault fs filename (nonexistent_message filename)
  | fault_empty f :
      fs !! filename = Some f ->
      file_size f = 0%Z ->
      input_fault fs filename (empty_message filename)
  | fault_missing_column f df :
      fs !! filename = Some f ->
      file_size f <> 0%Z ->
      read_gives f = Returned df ->
      "Price" ∉ labels df \/ "Quantity" ∉ labels df ->
      input_fault fs filename (missing_columns_message filename df).

End Process.

End Level4.

(** ** Sample inputs *)

Module Samples.

Import Level3 Level4.

(** The links of the [__main__] block of level3.py. *)
Definition test_links : list string :=
  [ "https://www.python.org";
    "https://docs.python.org/3/";
    "https://github.com/python/cpython";
    "https://google.com";
    "https://en.wikipedia.org/wiki/Python_(programming_language)" ].

(** A network on which every page is served. *)
Definition network_up (link : string) (t : Z) : outcome response :=
  Returned (Response 200 ("<html>" +:+ link +:+ "</html>")).

(** A network on which the fourth link times out and the others are
    served. *)
Definition network_one_down (link : string) (t : Z) : outcome response :=
  if decide (link = "https://google.com")
  then Raised (Exn ReqTimeout "Read timed out. (read timeout=5)")
  else Returned (Response 200 ("<html>" +:+ link +:+ "</html>")).

(** A network on which the interpreter is interrupted during a fetch. *)
Definition network_interrupted (link : string) (t : Z) : outcome response :=
  Raised (Exn KeyboardInterrupt "").

(** A network serving, at [/ok], a page whose text is the message
    [get_html] makes for the failure of [/down]. *)
Definition network_lookalike (link : string) (t : Z) : outcome response :=
  if decide (link = "http://h/down")
  then Raised (Exn ReqConnectionError "refused")
  else Returned (Response 200 "Ошибка при загрузке http://h/down: refused").

(** All workers are started, then the fourth one finishes first. *)
Definition fourth_first : list action :=
  replicate 6 Main
  ++ [Worker 3; Worker 3; Worker 0; Worker 0; Worker 1; Worker 1;
      Worker 2; Worker 2; Worker 4; Worker 4]
  ++ replicate 6 Main.

(** Two workers, the second finishing first. *)
Definition second_first : list action :=
  [Main; Main; Main; Worker 1; Worker 0; Worker 1; Worker 0; Main; Main; Main].

(** [posixpath.basename]: what follows the last slash. *)
Fixpoint basename_from (path acc : string) : string :=
  match path with
  | EmptyString => acc
  | String c path' =>
      if Ascii.eqb c (Ascii.ascii_of_nat 47) then basename_from path' "" else basename_from path' (acc +:+ String c "")
  end.

Definition sample_basename (path : string) : string := basename_from path "".

(** The way Python prints a list of plain labels. *)
Definition sample_repr (l : list string) : string :=
  "[" +:+ String.concat ", " ((fun x => "'" +:+ x +:+ "'") <$> l) +:+ "]".
Definition sample_size (df : DataFrame) : Z := 4096.

(** A platform on which directories can be made and files written and
    removed. *)
Definition nothing_raised (path : string) : option exn := None.

(** Products and sums that are refused on every column that is not of the
    dtype [int64]. *)
Definition refused_mul (a b : series) : series + string :=
  inr "can't multiply sequence by non-int of type 'str'".

Definition refused_sum (a : series) : scalar + string :=
  inr "unsupported operand type(s) for +: 'int' and 'str'".

Definition product_names : series :=
  Other "object" ["Product A"; "Product B"; "Product C"; "Product D"].

Definition table_ok : DataFrame :=
  Frame 4 [ ("Product", product_names);
            ("Price", Int64 [100; 200; 150; 300]%Z);
            ("Quantity", Int64 [2; 1; 3; 2]%Z) ].

Definition table_no_quantity : DataFrame :=
  Frame 4 [ ("Product", product_names); ("Price", Int64 [100; 200; 150; 300]%Z) ].

Definition sample_fs : gmap string file :=
  <["excel_files/data1.xlsx" := File 5000 (Returned table_ok) None]>
  (<["excel_files/data2.xlsx" := File 0 (Raised (Exn OtherException "File is not a zip file")) None]>
  (<["excel_files/data3.xlsx" := File 4800 (Returned table_no_quantity) None]> ∅)).

End Samples.

(** ** Runs of [run_parallel] with a chosen order of completion *)

Module Schedules.

Import Level3.

(** All workers are started and fetch, in the order of the links; they do
    their [append] in the order [order]; the main thread then joins them
    and returns. *)
Definition completing_in (order : list nat) : list action :=
  replicate (length order) Main ++ [Main]
  ++ (Worker <$> seq 0 (length order))
  ++ (Worker <$> order)
  ++ replicate (length order) Main ++ [Main].

(** The request a thread has still to make. *)
Definition pending_request (t : thread) : list request :=
  match t with
  | Fetching link => [Request link 5]
  | _ => []
  end.

(** The requests for the links not yet handed to a thread. *)
Definition unstarted_requests (p : main_pc) : list request :=
  match p with
  | Spawning rest => (fun link => Request link 5) <$> rest
  | _ => []
  end.

(** The requests made, and those still to be made. *)
Definition requests_accounted (s : state) : list request :=
  log s ++ (threads s ≫= pending_request) ++ unstarted_requests (pc s).

(** The state of the threads once those of [order] have done their
    [append]. *)
Definition terminate (order : list nat) (ts : list thread) : list thread :=
  foldl (fun ts tid => <[tid := Terminated]> ts) ts order.

(** The value the thread [tid] is about to append. *)
Definition appending (ts : list thread) (tid : nat) : list string :=
  match ts !! tid with
  | Some (Appending result) => [result]
  | _ => []
  end.

End Schedules.

(** ** level4.py: the columns of a table *)

Module Tables.

Import Level4.

(** The column [df[name]] gives, if there is one. *)
Definition column (df : DataFrame) (name : string) : option series :=
  match list_find (fun c => c.1 = name) (columns df) with
  | Some (_, c) => Some c.2
  | None => None
  end.

(** The table with its column [Total] set. *)
Definition with_total (df : DataFrame) (product : series) : DataFrame :=
  setitem df "Total" product.

(** The products of the cells of two [int64] columns, as [pandas]
    computes them, and the sum of the exact products. *)
Definition products (price quantity : list Z) : list Z :=
  zip_with (fun p q => wrap64 (p * q)) price quantity.

Definition sum_of_products (price quantity : list Z) : Z :=
  foldr Z.add 0%Z (zip_with Z.mul price quantity).

Section Processable.

Variable other_mul : series -> series -> series + string.
Variable other_sum : series -> scalar + string.

(** The file [filename] can be processed: it is there, not empty, holds
    a table with the columns [Price] and [Quantity], their product and
    its sum can be computed, and the file can be written over. *)
Definition processable (fs : gmap string file) (filename : string) : Prop :=
  exists f df price quantity product total,
    fs !! filename = Some f /\ file_size f <> 0%Z /\
    read_gives f = Returned df /\
    column df "Price" = Some price /\ column df "Quantity" = Some quantity /\
    series_mul other_mul price quantity = inl product /\
    write_raises f = None /\
    series_sum other_sum product = inl total.

End Processable.

End Tables.

(** ** level4.py: making, fetching and removing the files *)

Module Files.

Import Level4.

Section Files.

(** What the platform decides: [os.path.dirname], and the exception, if
    any, that [os.makedirs(d, exist_ok=True)] and [os.remove(path)] raise
    (directories and the rights on them are not part of [filesystem]). *)
Variable dirname : string -> string.
Variable makedirs_raises : string -> option exn.
Variable remove_raises : string -> option exn.
Variable workbook_size : DataFrame -> Z.
Variable create_raises : string -> option exn.

(** [pd.DataFrame(sample_data)] *)
Definition sample_data : DataFrame :=
  Frame 4 [ ("Product", Other "object" ["Product A"; "Product B"; "Product C"; "Product D"]);
            ("Price", Int64 [100; 200; 150; 300]%Z);
            ("Quantity", Int64 [2; 1; 3; 2]%Z) ].

(** [os.makedirs(d, exist_ok=True)] *)
Definition os_makedirs (d : string) : M filesystem unit :=
  fun fs =>
    match makedirs_raises d with
    | Some e => (fs, Raised e)
    | None => (fs, Returned tt)
    end.

(** [os.remove(path)] *)
Definition os_remove (path : string) : M filesystem unit :=
  fun fs =>
    match fs !! path with
    | None => (fs, Raised (no_such_file path))
    | Some _ =>
        match remove_raises path with
        | Some e => (fs, Raised e)
        | None => (delete path fs, Returned tt)
        end
    end.

(** [os.path.dirname(filename) if os.path.dirname(filename) else '.'] *)
Definition directory_of (filename : string) : string :=
  if decide (dirname filename = "") then "." else dirname filename.

Definition create_sample_excel_file (filename : string) : M filesystem bool :=
  try_except
    (do made <- os_makedirs (directory_of filename);;
     let df := sample_data in
     do saved <- to_excel workbook_size create_raises df filename;;
     ret true)
    is_Exception
    (fun e => ret false).

(** The loop of [cleanup_old_files]. *)
Fixpoint cleanup_old_files (filenames : list string) : M filesystem unit :=
  match filenames with
  | [] => ret tt
  | filename :: rest =>
      do found <- os_path_exists filename;;
      do removed <-
        (if found
         then try_except (os_remove filename) is_Exception (fun e => ret tt)
         else ret tt);;
      cleanup_old_files rest
  end.

(** [mock_download_file(session, url, filename)] from the point where it
    is resumed after [await asyncio.sleep(1)]: it runs to its end without
    giving the hand back. [None] is Python's [None]. *)
Definition mock_download_file (url filename : string) : M filesystem (option string) :=
  try_except
    (do success <- create_sample_excel_file filename;;
     if success then ret (Some filename) else ret None)
    is_Exception
    (fun e => ret None).

(** A task of the event loop: asleep, or over with its result. *)
Inductive task :=
  | Sleeping (url filename : string)
  | Done (result : option string).

(** [[mock_download_file(session, url, filename)
      for filename, url in file_urls.items()]], the dictionary being the
    list of its items in the order of insertion. *)
Definition tasks_of (file_urls : list (string * string)) : list task :=
  (fun item => Sleeping item.2 item.1) <$> file_urls.

(** [await asyncio.gather] of the tasks: the loop wakes the tasks up in the
    order [sched]. An exception that leaves a task (none of the class
    [Exception] does) ends the loop. [None] when [sched] wakes up a task
    that is not asleep. *)
Fixpoint gather (sched : list nat) (tasks : list task) (fs : filesystem)
    : option (filesystem * outcome (list task)) :=
  match sched with
  | [] => Some (fs, Returned tasks)
  | i :: sched' =>
      match tasks !! i with
      | Some (Sleeping url filename) =>
          match mock_download_file url filename fs with
          | (fs', Returned result) => gather sched' (<[i := Done result]> tasks) fs'
          | (fs', Raised e) => Some (fs', Raised e)
          end
      | _ => None
      end
  end.

(** The results of the tasks, in the order of the tasks, once all are
    over. *)
Definition results_of (tasks : list task) : option (list (option string)) :=
  mapM (fun t => match t with Done result => Some result | Sleeping _ _ => None end)
       tasks.

(** [download_files(file_urls)] when the tasks wake up in the order
    [sched]; [None] when [sched] is not a whole run. The session of
    [aiohttp] is opened and closed without a request being made, and is
    left out. *)
Definition download_files (sched : list nat) (file_urls : list (string * string))
    (fs : filesystem) : option (filesystem * outcome (list string)) :=
  match gather sched (tasks_of file_urls) fs with
  | Some (fs', Returned tasks) =>
      match results_of tasks with
      | Some results => Some (fs', Returned (omap id results))
      | None => None
      end
  | Some (fs', Raised e) => Some (fs', Raised e)
  | None => None
  end.

(** *** What is used to state the properties *)

(** The file [create_sample_excel_file] writes. *)
Definition written : file := File (workbook_size sample_data) (Returned sample_data) None.

(** Whether [create_sample_excel_file(filename)] gets its file written:
    the directory can be made and the file written. *)
Definition creates (fs : filesystem) (filename : string) : bool :=
  bool_decide (makedirs_raises (directory_of filename) = None)
  && bool_decide (write_failure create_raises fs filename = None).

(** Making the directory of [filename] and writing [filename] raise
    nothing but exceptions of the class [Exception]. *)
Definition ordinary_failures (fs : filesystem) (filename : string) : Prop :=
  (forall e, makedirs_raises (directory_of filename) = Some e -> is_Exception e = true) /\
  (forall e, write_failure create_raises fs filename = Some e -> is_Exception e = true).

(** Whether [cleanup_old_files] gets [path] removed. *)
Definition removes (filenames : list string) (path : string) : bool :=
  bool_decide (path ∈ filenames) && bool_decide (remove_raises path = None).

(** What the task for [filename] answers, and the file it leaves, the
    files being [fs] before the download. *)
Definition answer (fs : filesystem) (filename : string) : option string :=
  if creates fs filename then Some filename else None.

Definition file_after (fs : filesystem) (filename : string) : option file :=
  if creates fs filename then Some written else fs !! filename.

(** A task and its file go together: asleep with the file as it was, or
    over with its answer and the file as the task leaves it. *)
Definition task_consistent (fs0 fs : filesystem) (item : string * string) (t : task)
    : Prop :=
  (t = Sleeping item.2 item.1 /\ fs !! item.1 = fs0 !! item.1) \/
  (t = Done (answer fs0 item.1) /\ fs !! item.1 = file_after fs0 item.1).

(** The invariant of the event loop of [download_files], started on the
    files [fs0]. *)
Definition consistent (fs0 : filesystem) (file_urls : list (string * string))
    (tasks : list task) (fs : filesystem) : Prop :=
  length tasks = length file_urls /\
  (forall i item t, file_urls !! i = Some item -> tasks !! i = Some t ->
     task_consistent fs0 fs item t) /\
  (forall path, path ∉ file_urls.*1 -> fs !! path = fs0 !! path).

(** 1 for a task that is asleep. *)
Definition asleep (t : task) : nat :=
  match t with
  | Sleeping _ _ => 1
  | Done _ => 0
  end.

End Files.

End Files.

(** ** More sample inputs *)

Module MoreSamples.

Import Level4 Files Samples.

(** [posixpath.dirname] of a relative path: what comes before the last
    slash. *)
Fixpoint dirname_from (path seen dir : string) : string :=
  match path with
  | EmptyString => dir
  | String c path' =>
      if Ascii.eqb c (Ascii.ascii_of_nat 47)
      then dirname_from path' (seen +:+ String c "") seen
      else dirname_from path' (seen +:+ String c "") dir
  end.

Definition posix_dirname (path : string) : string := dirname_from path "" "".

(** The dictionary [test_files] of [main], as relative paths. *)
Definition test_files : list (string * string) :=
  [ ("excel_files/data1.xlsx", "local_file_1");
    ("excel_files/data2.xlsx", "local_file_2");
    ("excel_files/data3.xlsx", "local_file_3") ].

(** A network on which the fetch of the fourth link raises an exception
    that is not one of [requests]. *)
Definition network_one_broken (link : string) (t : Z) : outcome Level3.response :=
  if decide (link = "https://google.com")
  then Raised (Exn OtherException "label too long")
  else Returned (Level3.Response 200 ("<html>" +:+ link +:+ "</html>")).

(** All workers are started and run one after the other; the fourth one
    ends at its fetch. *)
Definition fourth_dies : list Level3.action :=
  replicate 6 Level3.Main
  ++ (Level3.Worker <$> [0; 0; 1; 1; 2; 2; 3; 4; 4])
  ++ replicate 6 Level3.Main.

(** A platform on which no file [out.txt] can be made: the engine does
    not accept the extension. *)
Definition xlsx_only (path : string) : option exn :=
  if String.eqb (basename_from path "") "out.txt"
  then Some (Exn OtherException "Invalid extension for engine 'openpyxl': 'txt'")
  else None.

(** A dictionary with a name the engine does not accept. *)
Definition mixed_files : list (string * string) :=
  [ ("excel_files/data1.xlsx", "local_file_1");
    ("out.txt", "u");
    ("excel_files/data3.xlsx", "local_file_3") ].

(** A workbook whose products leave the 64-bit range. *)
Definition table_big : DataFrame :=
  Frame 2 [ ("Price", Int64 [4611686018427387904; 1]%Z);
            ("Quantity", Int64 [2; 1]%Z) ].

Definition big_fs : gmap string file :=
  <["big.xlsx" := File 5000 (Returned table_big) None]> ∅.

(** A disk on which the second file cannot be written over. *)
Definition locked_fs : gmap string file :=
  <["excel_files/data2.xlsx" :=
      File 10 (Raised (Exn OtherException "File is not a zip file"))
           (Some (Exn OSError "[Errno 13] Permission denied"))]> ∅.

End MoreSamples.

Import Level3 Level4 Samples.

(** ** Properties of level3.py *)

Section Level3_properties.

Variable network : string -> Z -> outcome response.

Local Abbreviation get_html := (Level3.get_html network).
Local Abbreviation run_sequential := (Level3.run_sequential network).
Local Abbreviation run_sequential_loop := (Level3.run_sequential_loop network).
Local Abbreviation run_parallel := (Level3.run_parallel network).
Local Abbreviation fetch_outcome := (Level3.fetch_outcome network).
Local Abbreviation values_of := (Level3.values_of network).
Local Abbreviation step := (Level3.step network).
Local Abbreviation exec := (Level3.exec network).

(** *** The unit of work *)

Lemma get_html_eq link log :
  get_html link log = (log ++ [Request link 5], fetch_outcome link).
Proof.
  unfold Level3.get_html, Level3.fetch_outcome, try_except, bind, requests_get, ret.
  destruct (network link 5) as [r|e]; [done|].
  by destruct (is_RequestException e).
Qed.

Lemma result_for_outcome link v :
  result_for network link v <-> fetch_outcome link = Returned v.
Proof.
  unfold result_for. split.
  - intros H. specialize (H []). by rewrite get_html_eq in H.
  - intros H log. by rewrite get_html_eq.
Qed.

Lemma request_failure_only_returns link :
  request_failure_only network link ->
  fetch_outcome link =
    Returned (match network link 5 with
              | Returned r => text r
              | Raised e => error_message link e
              end).
Proof.
  unfold request_failure_only, Level3.fetch_outcome. intros H.
  destruct (network link 5) as [r|e]; [done|].
  by rewrite (H e eq_refl).
Qed.

(** *** The sequential runner *)

Lemma run_sequential_loop_comprehension links : forall results log,
  run_sequential_loop links results log =
  (do bs <- list_comprehension get_html links;; ret (results ++ bs)) log.
Proof.
  induction links as [|link rest IH]; intros results log; simpl.
  - unfold bind, ret. by rewrite app_nil_r.
  - unfold bind at 1 2 3. destruct (get_html link log) as [log1 [v|e]]; [|done].
    rewrite IH. unfold bind, ret.
    destruct (list_comprehension get_html rest log1) as [log2 [bs|e]]; [|done].
    by rewrite <- app_assoc.
Qed.

(** The requests made and the list built when every call returns. *)
Lemma list_comprehension_returns links : forall log,
  Forall (fun link => exists v, fetch_outcome link = Returned v) links ->
  list_comprehension get_html links log =
  (log ++ ((fun link => Request link 5) <$> links), Returned (values_of links)).
Proof.
  induction links as [|link rest IH]; intros log Hall; simpl.
  - unfold ret. by rewrite app_nil_r.
  - apply Forall_cons in Hall as [[v Hv] Hrest].
    unfold bind at 1. rewrite get_html_eq, Hv.
    unfold bind at 1. rewrite (IH _ Hrest). unfold ret.
    by rewrite <- app_assoc.
Qed.

(** If the comprehension returns, every call returned. *)
Lemma list_comprehension_returned links : forall log log' vs,
  list_comprehension get_html links log = (log', Returned vs) ->
  Forall (fun link => exists v, fetch_outcome link = Returned v) links.
Proof.
  induction links as [|link rest IH]; intros log log' vs; simpl; [done|].
  unfold bind at 1. rewrite get_html_eq.
  destruct (fetch_outcome link) as [v|e] eqn:Hv; [|done].
  unfold bind at 1.
  destruct (list_comprehension get_html rest _) as [log2 [bs|e]] eqn:Hrest; [|done].
  intros _. constructor; [by exists v|]. by eapply IH.
Qed.

(** *** The threads of the parallel runner *)

Local Abbreviation pending_of := (Level3.pending_of network).
Local Abbreviation accounted := (Level3.accounted network).
Local Abbreviation invariant := (Level3.invariant network).

Lemma values_of_cons link rest :
  values_of (link :: rest) = returned (fetch_outcome link) ++ values_of rest.
Proof. done. Qed.

Lemma split_at (ts : list thread) tid t :
  ts !! tid = Some t -> ts = take tid ts ++ t :: drop (S tid) ts.
Proof. intros H. by rewrite take_drop_middle. Qed.

(** Changing the state of one thread changes what is pending by what this
    thread holds. *)
Lemma pending_insert (ts : list thread) tid t t' :
  ts !! tid = Some t ->
  pending_of t ++ (<[tid := t']> ts ≫= pending_of)
  ≡ₚ pending_of t' ++ (ts ≫= pending_of).
Proof.
  intros H. pose proof (lookup_lt_Some _ _ _ H) as Hlt.
  rewrite (insert_take_drop _ _ _ Hlt).
  assert (ts ≫= pending_of =
          (take tid ts ≫= pending_of) ++ pending_of t ++ (drop (S tid) ts ≫= pending_of))
    as ->.
  { rewrite (split_at ts tid t H) at 1. by rewrite bind_app, bind_cons. }
  rewrite bind_app, bind_cons. solve_Permutation.
Qed.

Lemma fuel_insert (ts : list thread) tid t t' :
  ts !! tid = Some t ->
  sum_list_with thread_fuel (<[tid := t']> ts) + thread_fuel t =
  sum_list_with thread_fuel ts + thread_fuel t'.
Proof.
  intros H. pose proof (lookup_lt_Some _ _ _ H) as Hlt.
  rewrite (insert_take_drop _ _ _ Hlt).
  rewrite (split_at ts tid t H) at 3.
  rewrite !sum_list_with_app. simpl. lia.
Qed.

Lemma terminated_nothing_pending (ts : list thread) :
  Forall (fun t => t = Terminated) ts -> ts ≫= pending_of = [].
Proof.
  induction 1 as [|t ts -> _ IH]; [done|]. by rewrite bind_cons, IH.
Qed.

(** A thread that can still move is not among those already joined. *)
Lemma running_not_joined (ts : list thread) k tid t :
  Forall (fun t => t = Terminated) (take k ts) ->
  ts !! tid = Some t -> t <> Terminated -> k <= tid.
Proof.
  intros Hall Ht Hrun. destruct (decide (k <= tid)) as [|Hlt]; [done|].
  exfalso. apply Hrun. eapply (Forall_lookup_1 _ _ tid t Hall).
  rewrite lookup_take_lt by lia. done.
Qed.

Lemma invariant_init links : invariant links (init links).
Proof. split; [|done]. unfold Level3.accounted. simpl. done. Qed.

(** What the invariant says of the main thread is kept when a worker that
    can still move changes state. *)
Lemma main_part_insert (s : state) tid t t' (rs' : list string) :
  threads s !! tid = Some t -> t <> Terminated ->
  match pc s with
  | Spawning _ => True
  | Joining k => Forall (fun t => t = Terminated) (take k (threads s))
  | Finished value =>
      value = results s /\ Forall (fun t => t = Terminated) (threads s)
  end ->
  match pc s with
  | Spawning _ => True
  | Joining k => Forall (fun t => t = Terminated) (take k (<[tid := t']> (threads s)))
  | Finished value =>
      value = rs' /\ Forall (fun t => t = Terminated) (<[tid := t']> (threads s))
  end.
Proof.
  intros Ht Hrun. destruct (pc s) as [rest|k|value]; [done| |].
  - intros Hall. rewrite take_insert_ge; [done|]. by eapply running_not_joined.
  - intros [_ Hall]. destruct Hrun. by eapply (Forall_lookup_1 _ _ tid t Hall).
Qed.

Lemma invariant_step links a s s' :
  invariant links s -> step a s = Some s' -> invariant links s'.
Proof.
  intros [Hacc Hpc] Hstep. destruct a as [|tid]; simpl in Hstep.
  - unfold main_step in Hstep. unfold Level3.accounted in Hacc.
    destruct s as [p ts rs lg]; simpl in *.
    destruct p as [[|link rest]|k|value]; simpl in *.
    + injection Hstep as <-. split; [done|]. simpl. constructor.
    + injection Hstep as <-. split; [|done]. unfold Level3.accounted. simpl.
      rewrite <- Hacc, bind_app. unfold Level3.values_of. simpl.
      rewrite app_nil_r. solve_Permutation.
    + destruct (ts !! k) as [[link|v|]|] eqn:Hk; try done; injection Hstep as <-.
      * split; [done|]. simpl. rewrite (take_S_r _ _ _ Hk).
        apply Forall_app. split; [done|]. by constructor.
      * split; [done|]. simpl. split; [done|].
        rewrite take_ge in Hpc; [done|]. by apply lookup_ge_None.
    + done.
  - unfold worker_step in Hstep. unfold Level3.accounted in Hacc.
    destruct (threads s !! tid) as [[link|v|]|] eqn:Ht; try done.
    + rewrite get_html_eq in Hstep.
      pose proof (pending_insert (threads s) tid (Fetching link)) as Hins.
      destruct (fetch_outcome link) as [v|e] eqn:Hf; injection Hstep as <-.
      * split; [|by eapply main_part_insert]. unfold Level3.accounted. simpl.
        specialize (Hins (Appending v) Ht). simpl in Hins. rewrite Hf in Hins.
        simpl in Hins. apply Permutation_cons_inv in Hins. by rewrite Hins.
      * split; [|by eapply main_part_insert]. unfold Level3.accounted. simpl.
        specialize (Hins Terminated Ht). simpl in Hins. rewrite Hf in Hins.
        simpl in Hins. by rewrite Hins.
    + injection Hstep as <-.
      split; [|by eapply (main_part_insert s tid (Appending v))].
      unfold Level3.accounted. simpl.
      pose proof (pending_insert (threads s) tid (Appending v) Terminated Ht) as Hins.
      simpl in Hins. rewrite <- Hacc, <- Hins. solve_Permutation.
Qed.

Lemma invariant_exec links sched : forall s s',
  invariant links s -> exec sched s = Some s' -> invariant links s'.
Proof.
  induction sched as [|a sched IH]; intros s s' Hinv; simpl.
  - by intros [= <-].
  - destruct (step a s) as [s1|] eqn:Hstep; [|done].
    apply IH. by eapply invariant_step.
Qed.

(** The list [run_parallel] returns holds the value of each link whose
    fetch returned, once each, in some order. *)
Lemma run_parallel_values links sched rs :
  run_parallel links sched = Some rs -> rs ≡ₚ values_of links.
Proof.
  unfold Level3.run_parallel. intros Hrun.
  destruct (exec sched (init links)) as [s|] eqn:Hexec; [|done].
  simpl in Hrun. unfold returned_value in Hrun.
  destruct (invariant_exec _ _ _ _ (invariant_init links) Hexec) as [Hacc Hpc].
  destruct (pc s) as [rest|k|value] eqn:Hp; try done.
  injection Hrun as ->. destruct Hpc as [-> Hall].
  unfold Level3.accounted in Hacc. rewrite Hp in Hacc. simpl in Hacc.
  rewrite (terminated_nothing_pending _ Hall) in Hacc.
  by rewrite !app_nil_r in Hacc.
Qed.

(** *** Every run comes to its end *)

Lemma step_fuel a s s' : step a s = Some s' -> fuel s' < fuel s.
Proof.
  intros Hstep. destruct a as [|tid]; simpl in Hstep.
  - unfold main_step in Hstep. destruct s as [p ts rs lg]; simpl in *.
    destruct p as [[|link rest]|k|value]; simpl in *.
    + injection Hstep as <-. unfold fuel. simpl. lia.
    + injection Hstep as <-. unfold fuel. simpl.
      rewrite sum_list_with_app, length_app. simpl. lia.
    + destruct (ts !! k) as [[link|v|]|] eqn:Hk; try done; injection Hstep as <-.
      * apply lookup_lt_Some in Hk. unfold fuel. simpl. lia.
      * unfold fuel. simpl. lia.
    + done.
  - unfold worker_step in Hstep.
    destruct (threads s !! tid) as [[link|v|]|] eqn:Ht; try done.
    + destruct (get_html link (log s)) as [lg [v|e]]; injection Hstep as <-.
      * pose proof (fuel_insert _ tid _ (Appending v) Ht) as Hf.
        unfold fuel. simpl in *. rewrite length_insert. lia.
      * pose proof (fuel_insert _ tid _ Terminated Ht) as Hf.
        unfold fuel. simpl in *. rewrite length_insert. lia.
    + injection Hstep as <-.
      pose proof (fuel_insert _ tid _ Terminated Ht) as Hf.
      unfold fuel. simpl in *. rewrite length_insert. lia.
Qed.

(** A run is never longer than the fuel of the state it starts from. *)
Lemma exec_fuel sched : forall s s',
  exec sched s = Some s' -> length sched + fuel s' <= fuel s.
Proof.
  induction sched as [|a sched IH]; intros s s'; simpl.
  - intros [= <-]. lia.
  - destruct (step a s) as [s1|] eqn:Hstep; [|done].
    intros Hexec. apply IH in Hexec. apply step_fuel in Hstep. lia.
Qed.

(** No deadlock: as long as the main thread has not returned, some thread
    can move. *)
Lemma progress s :
  returned_value s = None -> exists a s', step a s = Some s'.
Proof.
  unfold returned_value. intros Hrun.
  destruct (pc s) as [[|link rest]|k|value] eqn:Hp; [| | |done].
  - exists Main. simpl. unfold main_step. rewrite Hp. eauto.
  - exists Main. simpl. unfold main_step. rewrite Hp. eauto.
  - destruct (threads s !! k) as [[link|v|]|] eqn:Hk.
    + exists (Worker k). simpl. unfold worker_step. rewrite Hk.
      destruct (get_html link (log s)) as [lg [v|e]]; eauto.
    + exists (Worker k). simpl. unfold worker_step. rewrite Hk. eauto.
    + exists Main. simpl. unfold main_step. rewrite Hp, Hk. eauto.
    + exists Main. simpl. unfold main_step. rewrite Hp, Hk. eauto.
Qed.

Lemma can_finish n : forall s,
  fuel s < n ->
  exists sched s' rs, exec sched s = Some s' /\ returned_value s' = Some rs.
Proof.
  induction n as [|n IH]; intros s Hfuel; [lia|].
  destruct (returned_value s) as [rs|] eqn:Hret.
  - by exists [], s, rs.
  - destruct (progress s Hret) as (a & s1 & Hstep).
    pose proof (step_fuel _ _ _ Hstep) as Hlt.
    destruct (IH s1) as (sched & s' & rs & Hexec & Hrs); [lia|].
    exists (a :: sched), s', rs. simpl. by rewrite Hstep.
Qed.

Lemma exec_app sched1 sched2 s :
  exec (sched1 ++ sched2) s = exec sched1 s ≫= exec sched2.
Proof.
  revert s. induction sched1 as [|a sched1 IH]; intros s; simpl; [done|].
  destruct (step a s); [apply IH|done].
Qed.

(** Whatever was run so far, [run_parallel] can be run on to its
    [return]. *)
Lemma run_parallel_completes links sched s :
  exec sched (init links) = Some s ->
  exists sched' rs, run_parallel links (sched ++ sched') = Some rs.
Proof.
  intros Hexec.
  destruct (can_finish (S (fuel s)) s) as (sched' & s' & rs & Hexec' & Hrs); [lia|].
  exists sched', rs. unfold Level3.run_parallel.
  rewrite exec_app, Hexec. simpl. rewrite Hexec'. done.
Qed.

(** *** Results come in the order of completion *)

Lemma by_position_init links : threads_by_position network links (init links).
Proof.
  split; simpl.
  - intros tid t. by rewrite lookup_nil.
  - by intros rest [= <-].
Qed.

Lemma by_position_step links a s s' :
  threads_by_position network links s -> step a s = Some s' ->
  threads_by_position network links s'.
Proof.
  intros [Hts Hrest] Hstep. destruct a as [|tid]; simpl in Hstep.
  - unfold main_step in Hstep. destruct s as [p ts rs lg]; simpl in *.
    destruct p as [[|link rest]|k|value]; simpl in *.
    + injection Hstep as <-. by split.
    + injection Hstep as <-. specialize (Hrest _ eq_refl). split; simpl.
      * intros tid t [Hold|[-> <-]]%lookup_snoc_Some; [by apply Hts; tauto|].
        simpl. rewrite <- (Nat.add_0_r (length ts)), <- lookup_drop, Hrest. done.
      * intros rest' [= <-]. rewrite length_app. simpl.
        rewrite <- drop_drop, Hrest. done.
    + destruct (ts !! k) as [[link|v|]|] eqn:Hk; try done;
        injection Hstep as <-; by split.
    + done.
  - unfold worker_step in Hstep.
    destruct (threads s !! tid) as [[link|v|]|] eqn:Ht; try done.
    + rewrite get_html_eq in Hstep. pose proof (Hts _ _ Ht) as Hlink. simpl in Hlink.
      destruct (fetch_outcome link) as [v|e] eqn:Hf; injection Hstep as <-.
      * split; simpl; [|by rewrite length_insert].
        intros j t [(-> & <- & _)|[_ Hold]]%list_lookup_insert_Some; [|by apply Hts].
        simpl. eauto.
      * split; simpl; [|by rewrite length_insert].
        intros j t [(-> & <- & _)|[_ Hold]]%list_lookup_insert_Some; [done|by apply Hts].
    + injection Hstep as <-. split; simpl; [|by rewrite length_insert].
      intros j t [(-> & <- & _)|[_ Hold]]%list_lookup_insert_Some; [done|by apply Hts].
Qed.

(** What a run adds to [results]: the value of [links[tid]] for each
    worker [tid] that did its [append], in the order of these appends. *)
Lemma results_by_completion links sched : forall s s',
  threads_by_position network links s ->
  exec sched s = Some s' ->
  exists new,
    results s' = results s ++ new /\
    Forall2 (fun v tid =>
               exists link, links !! tid = Some link /\ fetch_outcome link = Returned v)
            new (completion_order network sched s).
Proof.
  induction sched as [|a sched IH]; intros s s' Hpos; simpl.
  - intros [= <-]. exists []. by rewrite app_nil_r.
  - destruct (step a s) as [s1|] eqn:Hstep; [|done]. intros Hexec.
    destruct (IH s1 s' (by_position_step _ _ _ _ Hpos Hstep) Hexec) as (new & Hres & Hall).
    destruct a as [|tid]; simpl in Hstep.
    + exists new. split; [|done]. rewrite Hres. f_equal.
      unfold main_step in Hstep.
      destruct (pc s) as [[|link rest]|k|value]; try done;
        try (by injection Hstep as <-).
      destruct (threads s !! k) as [[link|v|]|]; try done; by injection Hstep as <-.
    + unfold worker_step in Hstep.
      destruct (threads s !! tid) as [[link|v|]|] eqn:Ht; try done.
      * exists new. split; [|done]. rewrite Hres. f_equal.
        destruct (get_html link (log s)) as [lg [v|e]]; by injection Hstep as <-.
      * exists (v :: new). injection Hstep as <-. simpl in Hres.
        split; [by rewrite Hres, <- app_assoc|].
        constructor; [|done]. apply (proj1 Hpos _ _ Ht).
Qed.

(** A thread that is over stays so. *)
Lemma terminated_stays a s s' tid :
  step a s = Some s' ->
  threads s !! tid = Some Terminated -> threads s' !! tid = Some Terminated.
Proof.
  intros Hstep Hover. destruct a as [|tid']; simpl in Hstep.
  - unfold main_step in Hstep.
    destruct (pc s) as [[|link rest]|k|value]; try done;
      try (by injection Hstep as <-).
    + injection Hstep as <-. simpl. by apply lookup_app_l_Some.
    + destruct (threads s !! k) as [[link|v|]|]; try done; by injection Hstep as <-.
  - unfold worker_step in Hstep.
    assert (tid' <> tid) as Hne.
    { intros ->. rewrite Hover in Hstep. done. }
    destruct (threads s !! tid') as [[link|v|]|]; try done.
    + destruct (get_html link (log s)) as [lg [v|e]]; injection Hstep as <-; simpl;
        by rewrite list_lookup_insert_ne.
    + injection Hstep as <-. simpl. by rewrite list_lookup_insert_ne.
Qed.

(** Only threads that are not over do an [append]. *)
Lemma completion_order_running sched : forall s tid,
  tid ∈ completion_order network sched s -> threads s !! tid <> Some Terminated.
Proof.
  induction sched as [|a sched IH]; intros s tid; simpl.
  - by intros ?%elem_of_nil.
  - destruct (step a s) as [s1|] eqn:Hstep; [|by intros ?%elem_of_nil].
    intros Hin Hover.
    assert (tid ∈ completion_order network sched s1 -> False) as Hlater.
    { intros Hin1. apply (IH _ _ Hin1). by eapply terminated_stays. }
    destruct a as [|tid']; [done|].
    destruct (threads s !! tid') as [[link|v|]|] eqn:Ht; try done.
    apply elem_of_cons in Hin as [->|Hin]; [|done].
    rewrite Hover in Ht. done.
Qed.

(** No worker does its [append] twice. *)
Lemma completion_order_NoDup sched : forall s,
  NoDup (completion_order network sched s).
Proof.
  induction sched as [|a sched IH]; intros s; simpl; [constructor|].
  destruct (step a s) as [s1|] eqn:Hstep; [|constructor].
  destruct a as [|tid]; [done|].
  destruct (threads s !! tid) as [[link|v|]|] eqn:Ht; try done.
  constructor; [|done].
  intros Hin%completion_order_running. apply Hin.
  simpl in Hstep. unfold worker_step in Hstep. rewrite Ht in Hstep.
  injection Hstep as <-. simpl. apply list_lookup_insert_eq.
  by eapply lookup_lt_Some.
Qed.

(** *** The runner *)

Lemma values_of_returned links :
  Forall (fun link => exists v, fetch_outcome link = Returned v) links ->
  Forall2 (fun link v => fetch_outcome link = Returned v) links (values_of links).
Proof.
  induction 1 as [|link rest [v Hv] _ IH]; [constructor|].
  rewrite values_of_cons, Hv. simpl. by constructor.
Qed.

Lemma request_failure_only_all links :
  Forall (request_failure_only network) links ->
  Forall (fun link => exists v, fetch_outcome link = Returned v) links.
Proof.
  intros Hall. eapply Forall_impl; [exact Hall|].
  intros link H. eexists. by apply request_failure_only_returns.
Qed.

Lemma run_sequential_comprehension links log :
  run_sequential links log = list_comprehension get_html links log.
Proof.
  unfold Level3.run_sequential. rewrite run_sequential_loop_comprehension.
  unfold bind, ret. by destruct (list_comprehension get_html links log) as [log' [bs|e]].
Qed.

Lemma run_sequential_returns links log :
  Forall (fun link => exists v, fetch_outcome link = Returned v) links ->
  run_sequential links log =
  (log ++ ((fun link => Request link 5) <$> links), Returned (values_of links)).
Proof.
  intros H. rewrite run_sequential_comprehension. by apply list_comprehension_returns.
Qed.

Lemma run_sequential_returned links log log' seq :
  run_sequential links log = (log', Returned seq) ->
  Forall (fun link => exists v, fetch_outcome link = Returned v) links /\
  seq = values_of links.
Proof.
  rewrite run_sequential_comprehension. intros Hrun.
  pose proof (list_comprehension_returned _ _ _ _ Hrun) as Hall.
  split; [done|]. rewrite (list_comprehension_returns _ log Hall) in Hrun.
  by injection Hrun as _ <-.
Qed.

(** C1, as amended: in [run_parallel] each worker appends its value to the
    shared list when its fetch is over, so that the list returned is in
    the order of completion: no worker appends twice, and the entry at
    index [i] is the value of [get_html] for the input of the worker that
    was the [i]-th to append, which need not be the input at index [i]. *)
Theorem run_parallel_results_by_completion_order links sched rs :
  run_parallel links sched = Some rs ->
  NoDup (completion_order network sched (init links)) /\
  Forall2 (fun v tid =>
             exists link, links !! tid = Some link /\ result_for network link v)
          rs (completion_order network sched (init links)).
Proof.
  unfold Level3.run_parallel. intros Hrun.
  split; [apply completion_order_NoDup|].
  destruct (exec sched (init links)) as [s|] eqn:Hexec; [|done].
  simpl in Hrun. unfold returned_value in Hrun.
  destruct (invariant_exec _ _ _ _ (invariant_init links) Hexec) as [_ Hpc].
  destruct (results_by_completion _ _ _ _ (by_position_init links) Hexec)
    as (new & Hres & Hall).
  destruct (pc s) as [rest|k|value]; try done.
  injection Hrun as ->. destruct Hpc as [-> _]. rewrite Hres. simpl.
  eapply Forall2_impl; [exact Hall|]. simpl.
  intros v tid (link & Hlink & Hv). exists link. split; [done|].
  by apply result_for_outcome.
Qed.

(** C2, as amended: when no fetch fails otherwise than by an exception of
    [requests], the list returned has one entry per input, in both modes:
    [run_sequential] returns a list as long as [links]; so does every run
    of [run_parallel], and every run of it goes on to its [return]. *)
Theorem results_one_per_input links :
  Forall (request_failure_only network) links ->
  (forall log, exists log' rs,
      run_sequential links log = (log', Returned rs) /\ length rs = length links) /\
  (forall sched rs, run_parallel links sched = Some rs -> length rs = length links) /\
  (forall sched s, exec sched (init links) = Some s ->
      exists sched' rs, run_parallel links (sched ++ sched') = Some rs).
Proof.
  intros Hall%request_failure_only_all.
  pose proof (Forall2_length _ _ _ (values_of_returned _ Hall)) as Hlen.
  split; [|split].
  - intros log. eexists _, _. split; [by apply run_sequential_returns|done].
  - intros sched rs Hrun%run_parallel_values.
    by rewrite (Permutation_length Hrun).
  - apply run_parallel_completes.
Qed.

(** C3: [run_sequential(links)] calls [get_html] once per link, in the
    order of the list, and gathers the results in one list: it makes the
    same requests and gives the same outcome as the comprehension
    [[get_html(link) for link in links]], and when it returns, the
    requests it made are one per link, in the order of the links. *)
Theorem run_sequential_eq_comprehension links log :
  run_sequential links log = list_comprehension get_html links log /\
  (forall log' rs,
     run_sequential links log = (log', Returned rs) ->
     log' = log ++ ((fun link => Request link 5) <$> links) /\
     length rs = length links).
Proof.
  split; [apply run_sequential_comprehension|].
  intros log' rs Hrun.
  destruct (run_sequential_returned _ _ _ _ Hrun) as [Hall ->].
  rewrite (run_sequential_returns _ log Hall) in Hrun. injection Hrun as <-.
  split; [done|]. symmetry. eapply Forall2_length. by apply values_of_returned.
Qed.


(** C5, as amended: [get_html] returns a string in both cases, the text of
    the page when the fetch succeeds and the message
    "Ошибка при загрузке <link>: <e>" when it fails with an exception of
    [requests]; the message has no kind, and it is a string a page can
    be made of as well. *)
Theorem get_html_returns_body_or_message link log :
  get_html link log =
    (log ++ [Request link 5],
     match network link 5 with
     | Returned r => Returned (text r)
     | Raised e =>
         if is_RequestException e then Returned (error_message link e) else Raised e
     end) /\
  forall e : exn, exists served : string -> Z -> outcome response,
    (exists r, served link 5%Z = Returned r) /\
    Level3.get_html served link log =
      (log ++ [Request link 5], Returned (error_message link e)).
Proof.
  split; [apply get_html_eq|].
  intros e. exists (fun _ _ => Returned (Response 200 (error_message link e))).
  split; [by eexists|done].
Qed.

(** C6: [get_html] makes its request with a timeout of 5 seconds, and a
    failure of the request (a timeout, a connection error, any exception
    of [requests]) does not leave it: it returns a string, the text of the
    page or the message made from the exception. *)
Theorem get_html_total_on_request_failures link log :
  request_failure_only network link ->
  get_html link log =
    (log ++ [Request link 5],
     Returned (match network link 5 with
               | Returned r => text r
               | Raised e => error_message link e
               end)).
Proof.
  intros H. by rewrite get_html_eq, request_failure_only_returns.
Qed.

(** C7: on the empty list both runners return the empty list, and no
    exception is raised: [run_sequential([])] returns [[]] and makes no
    request; [run_parallel([])] returns [[]] in two steps of the main
    thread, a schedule either is not a whole run of it or returns [[]],
    and every run begun goes on to the return of [[]]. *)
Theorem empty_input_empty_results :
  (forall log, run_sequential [] log = (log, Returned [])) /\
  run_parallel [] [Main; Main] = Some [] /\
  (forall sched, run_parallel [] sched = None \/ run_parallel [] sched = Some []) /\
  (forall sched s, exec sched (init []) = Some s ->
     exists sched', run_parallel [] (sched ++ sched') = Some []).
Proof.
  assert (forall sched rs, run_parallel [] sched = Some rs -> rs = []) as Hnil.
  { intros sched rs Hrun%run_parallel_values. by apply Permutation_nil_r in Hrun. }
  split; [done|]. split; [done|]. split.
  - intros sched. destruct (run_parallel [] sched) as [rs|] eqn:Hrun; [|by left].
    right. by pose proof (Hnil _ _ Hrun) as ->.
  - intros sched s Hexec.
    destruct (run_parallel_completes _ _ _ Hexec) as (sched' & rs & Hrun).
    exists sched'. by pose proof (Hnil _ _ Hrun) as ->.
Qed.

(** C10: the list [run_parallel] returns has the same elements, each as
    many times, as the list [run_sequential] returns on the same links:
    it is a rearrangement of it. *)
Theorem run_parallel_permutation_of_sequential links log log' seq sched par :
  run_sequential links log = (log', Returned seq) ->
  run_parallel links sched = Some par ->
  par ≡ₚ seq.
Proof.
  intros [_ ->]%run_sequential_returned. apply run_parallel_values.
Qed.

End Level3_properties.

(** ** Properties of level4.py *)

Section Level4_properties.

Variable basename : string -> string.
Variable repr_labels : list string -> string.
Variable workbook_size : DataFrame -> Z.
Variable create_raises : string -> option exn.
Variable other_mul : series -> series -> series + string.
Variable other_sum : series -> scalar + string.

Local Abbreviation calculate_new_column :=
  (Level4.calculate_new_column basename repr_labels workbook_size create_raises
     other_mul other_sum).
Local Abbreviation input_fault := (Level4.input_fault basename repr_labels).

Lemma has_column_false name df : name ∉ labels df -> has_column name df = false.
Proof. intros H. unfold has_column. by apply bool_decide_eq_false. Qed.

Lemma missing_column_test df :
  "Price" ∉ labels df \/ "Quantity" ∉ labels df ->
  negb (has_column "Price" df) || negb (has_column "Quantity" df) = true.
Proof.
  intros [H|H]; rewrite (has_column_false _ _ H); [done|].
  by destruct (has_column "Price" df).
Qed.

(** C8: [calculate_new_column] reports the faults of its input by the
    value it returns, not by an exception: for a file that does not
    exist, for a file of zero bytes and for a table without the column
    [Price] or [Quantity] it returns the string that names the fault, and
    leaves the files as they are. *)
Theorem calculate_new_column_reports_faults fs filename msg :
  input_fault fs filename msg ->
  calculate_new_column filename fs = (fs, Returned (VStr msg)).
Proof.
  intros [Hnone | f Hf Hsize | f df Hf Hsize Hread Hcols];
    unfold Level4.calculate_new_column, try_except, bind,
      os_path_exists, os_path_getsize, pd_read_excel.
  - rewrite Hnone. done.
  - rewrite Hf. simpl. rewrite Hf, Hsize. done.
  - rewrite Hf. simpl. apply Z.eqb_neq in Hsize. rewrite Hf, Hsize. simpl.
    rewrite Hf, Hread, (missing_column_test _ Hcols). done.
Qed.

(** X15: no exception of the class [Exception] leaves
    [calculate_new_column]: whatever reading or writing the file raises, a
    value is returned. *)
Lemma calculate_new_column_returns fs filename :
  (forall f e, fs !! filename = Some f -> read_gives f = Raised e ->
     is_Exception e = true) ->
  (forall f e, fs !! filename = Some f -> write_raises f = Some e ->
     is_Exception e = true) ->
  exists fs' v, calculate_new_column filename fs = (fs', Returned v).
Proof.
  intros Hread Hwrite.
  unfold Level4.calculate_new_column, try_except, bind,
    os_path_exists, os_path_getsize, pd_read_excel.
  destruct (fs !! filename) as [f|] eqn:Hf; simpl; [|by eexists _, _].
  rewrite Hf. destruct (file_size f =? 0)%Z; [by eexists _, _|].
  simpl. rewrite Hf.
  destruct (read_gives f) as [df|e] eqn:Hr;
    [|rewrite (Hread _ _ eq_refl Hr); by eexists _, _].
  destruct (negb (has_column "Price" df) || negb (has_column "Quantity" df));
    [by eexists _, _|].
  unfold getitem, raise, ret.
  destruct (list_find _ (columns df)) as [[i1 c1]|]; [|by eexists _, _].
  destruct (list_find _ (columns df)) as [[i2 c2]|]; [|by eexists _, _].
  unfold pandas, raise, ret.
  destruct (series_mul other_mul c1.2 c2.2) as [product|msg]; [|by eexists _, _].
  unfold to_excel, write_failure. rewrite Hf.
  destruct (write_raises f) as [e|] eqn:Hw;
    [rewrite (Hwrite _ _ eq_refl Hw); by eexists _, _|].
  destruct (list_find _ _) as [[i3 c3]|]; [|by eexists _, _].
  destruct (series_sum other_sum c3.2) as [total|msg]; by eexists _, _.
Qed.

(** The three messages name three different faults, and none of them is
    the dictionary of a success. *)
Lemma fault_messages_differ filename filename' df :
  nonexistent_message filename <> empty_message filename' /\
  nonexistent_message filename <> missing_columns_message basename repr_labels filename' df /\
  empty_message filename <> missing_columns_message basename repr_labels filename' df.
Proof.
  unfold nonexistent_message, empty_message, missing_columns_message.
  repeat split; simpl; intros H; discriminate H.
Qed.

End Level4_properties.

(** ** The claims at the sample inputs *)

(** C1 as the specification states it, refuted: with two links and the
    second worker appending first, the entry at index 0 is the page of the
    second link, not of the first. *)
Lemma results_by_input_position_fails :
  ~ (forall (network : string -> Z -> outcome response) links sched rs i link,
       run_parallel network links sched = Some rs ->
       links !! i = Some link ->
       exists v, rs !! i = Some v /\ result_for network link v).
Proof.
  intros H.
  assert (run_parallel network_up ["a"; "b"] second_first
          = Some ["<html>b</html>"; "<html>a</html>"]) as Hrun
    by (vm_compute; reflexivity).
  destruct (H _ _ _ _ 0 "a" Hrun eq_refl) as (v & Hv & Hres).
  injection Hv as <-.
  specialize (Hres []). vm_compute in Hres. discriminate Hres.
Qed.

(** C2 as the specification states it, refuted: with the five links of the
    script, the fetch of the fourth raising an exception that is not one of
    [requests], the worker ends without an [append] and [run_parallel]
    returns four entries for five inputs. *)
Lemma one_entry_per_input_fails :
  ~ (forall (network : string -> Z -> outcome response) links,
       links <> [] ->
       (forall log, exists log' rs,
           run_sequential network links log = (log', Returned rs) /\
           length rs = length links) /\
       (forall sched rs,
           run_parallel network links sched = Some rs -> length rs = length links)).
Proof.
  intros H.
  destruct (H MoreSamples.network_one_broken test_links) as [_ Hpar]; [done|].
  assert (run_parallel MoreSamples.network_one_broken test_links MoreSamples.fourth_dies
          = Some [ "<html>https://www.python.org</html>";
                   "<html>https://docs.python.org/3/</html>";
                   "<html>https://github.com/python/cpython</html>";
                   "<html>https://en.wikipedia.org/wiki/Python_(programming_language)</html>" ])
    as Hrun by (vm_compute; reflexivity).
  apply Hpar in Hrun. discriminate Hrun.
Qed.


(** C5 as the specification states it, refuted: no test on the value
    returned tells a failed fetch from a page, since a page can have the
    text of the message. *)
Lemma failure_not_told_by_value :
  ~ (exists is_error : string -> bool,
       forall (network : string -> Z -> outcome response) link log log' v,
         get_html network link log = (log', Returned v) ->
         (is_error v = true <-> exists e, network link 5%Z = Raised e)).
Proof.
  intros [is_error H].
  assert (get_html network_lookalike "http://h/down" []
          = ([Request "http://h/down" 5],
             Returned "Ошибка при загрузке http://h/down: refused")) as Hdown
    by (vm_compute; reflexivity).
  assert (get_html network_lookalike "http://h/ok" []
          = ([Request "http://h/ok" 5],
             Returned "Ошибка при загрузке http://h/down: refused")) as Hok
    by (vm_compute; reflexivity).
  apply H in Hdown. apply H in Hok.
  assert (is_error "Ошибка при загрузке http://h/down: refused" = true) as Hyes.
  { apply Hdown. eexists. vm_compute. reflexivity. }
  apply Hok in Hyes as [e He]. vm_compute in He. discriminate He.
Qed.

(** C1 at two links, the second worker appending first: the order of
    completion is [[1; 0]] and the list returned follows it. *)
Lemma run_parallel_results_by_completion_order_witness :
  run_parallel network_up ["a"; "b"] second_first
    = Some ["<html>b</html>"; "<html>a</html>"] /\
  NoDup [1; 0] /\
  Forall2 (fun v tid =>
             exists link, ["a"; "b"] !! tid = Some link /\ result_for network_up link v)
          ["<html>b</html>"; "<html>a</html>"] [1; 0].
Proof.
  split; [vm_compute; reflexivity|].
  apply (run_parallel_results_by_completion_order network_up ["a"; "b"] second_first).
  vm_compute. reflexivity.
Defined.

(** On [network_one_down] no link of the script fails otherwise than by an
    exception of [requests]. *)
Lemma test_links_request_failure_only :
  Forall (request_failure_only network_one_down) test_links.
Proof.
  repeat constructor; intros e He; vm_compute in He;
    first [discriminate He | by injection He as <-].
Defined.

(** C2 at the five links of the script, one of them timing out. *)
Lemma results_one_per_input_witness :
  Forall (request_failure_only network_one_down) test_links /\
  (forall log, exists log' rs,
      run_sequential network_one_down test_links log = (log', Returned rs) /\
      length rs = 5) /\
  (forall sched rs,
      run_parallel network_one_down test_links sched = Some rs -> length rs = 5) /\
  (forall sched s, exec network_one_down sched (init test_links) = Some s ->
      exists sched' rs,
        run_parallel network_one_down test_links (sched ++ sched') = Some rs).
Proof.
  split; [exact test_links_request_failure_only|].
  apply (results_one_per_input network_one_down test_links).
  exact test_links_request_failure_only.
Defined.


(** C6 at a link that times out. *)
Lemma get_html_total_on_request_failures_witness :
  request_failure_only network_one_down "https://google.com" /\
  get_html network_one_down "https://google.com" []
    = ([Request "https://google.com" 5],
       Returned "Ошибка при загрузке https://google.com: Read timed out. (read timeout=5)").
Proof.
  split.
  - intros e He. vm_compute in He. by injection He as <-.
  - apply (get_html_total_on_request_failures network_one_down "https://google.com" []).
    intros e He. vm_compute in He. by injection He as <-.
Defined.

(** C10 at the five links of the script, the fourth worker appending
    first. *)
Lemma run_parallel_permutation_of_sequential_witness :
  [ "Ошибка при загрузке https://google.com: Read timed out. (read timeout=5)";
    "<html>https://www.python.org</html>";
    "<html>https://docs.python.org/3/</html>";
    "<html>https://github.com/python/cpython</html>";
    "<html>https://en.wikipedia.org/wiki/Python_(programming_language)</html>" ]
  ≡ₚ
  [ "<html>https://www.python.org</html>";
    "<html>https://docs.python.org/3/</html>";
    "<html>https://github.com/python/cpython</html>";
    "Ошибка при загрузке https://google.com: Read timed out. (read timeout=5)";
    "<html>https://en.wikipedia.org/wiki/Python_(programming_language)</html>" ].
Proof.
  apply (run_parallel_permutation_of_sequential network_one_down test_links
           [] ((fun link => Request link 5) <$> test_links) _ fourth_first);
    vm_compute; reflexivity.
Defined.

(** C8 at a workbook without the column [Quantity]. *)
Lemma calculate_new_column_reports_faults_witness :
  calculate_new_column sample_basename sample_repr sample_size nothing_raised
    refused_mul refused_sum "excel_files/data3.xlsx" sample_fs
  = (sample_fs,
     Returned (VStr (missing_columns_message sample_basename sample_repr
                       "excel_files/data3.xlsx" table_no_quantity))).
Proof.
  apply (calculate_new_column_reports_faults sample_basename sample_repr sample_size
           nothing_raised refused_mul refused_sum).
  eapply (fault_missing_column _ _ _ _ (File 4800 (Returned table_no_quantity) None));
    [vm_compute; reflexivity|done|reflexivity|].
  right. vm_compute. intros H. by repeat (apply elem_of_cons in H as [H|H]; [discriminate H|]); apply elem_of_nil in H.
Defined.

Import Schedules Tables Files MoreSamples.

(** ** More on level3.py *)

Section Level3_runs.

Variable network : string -> Z -> outcome response.

Local Abbreviation get_html := (Level3.get_html network).
Local Abbreviation run_sequential := (Level3.run_sequential network).
Local Abbreviation run_parallel := (Level3.run_parallel network).
Local Abbreviation fetch_outcome := (Level3.fetch_outcome network).
Local Abbreviation values_of := (Level3.values_of network).
Local Abbreviation step := (Level3.step network).
Local Abbreviation exec := (Level3.exec network).

Lemma bind_insert_perm {B} (f : thread -> list B) (ts : list thread) tid t t' :
  ts !! tid = Some t ->
  f t ++ (<[tid := t']> ts ≫= f) ≡ₚ f t' ++ (ts ≫= f).
Proof.
  intros H. pose proof (lookup_lt_Some _ _ _ H) as Hlt.
  rewrite (insert_take_drop _ _ _ Hlt).
  assert (ts ≫= f = (take tid ts ≫= f) ++ f t ++ (drop (S tid) ts ≫= f)) as ->.
  { rewrite (split_at ts tid t H) at 1. by rewrite bind_app, bind_cons. }
  rewrite bind_app, bind_cons. solve_Permutation.
Qed.

(** No request is lost, made twice or made up along a step. *)
Lemma requests_step a s s' :
  step a s = Some s' -> requests_accounted s' ≡ₚ requests_accounted s.
Proof.
  intros Hstep. unfold requests_accounted. destruct a as [|tid]; simpl in Hstep.
  - unfold main_step in Hstep. destruct s as [p ts rs lg]; simpl in *.
    destruct p as [[|link rest]|k|value]; simpl in *.
    + by injection Hstep as <-.
    + injection Hstep as <-. simpl. rewrite bind_app. simpl. solve_Permutation.
    + destruct (ts !! k) as [[link|v|]|]; try done; by injection Hstep as <-.
    + done.
  - unfold worker_step in Hstep.
    destruct (threads s !! tid) as [[link|v|]|] eqn:Ht; try done.
    + rewrite get_html_eq in Hstep.
      pose proof (bind_insert_perm pending_request _ tid _ Terminated Ht) as Hover.
      pose proof (bind_insert_perm pending_request _ tid _ (Appending "") Ht) as Hgot.
      simpl in Hover, Hgot.
      destruct (fetch_outcome link) as [v|e]; injection Hstep as <-; simpl.
      * assert (<[tid := Appending v]> (threads s) ≫= pending_request
                = <[tid := Appending ""]> (threads s) ≫= pending_request) as ->.
        { pose proof (lookup_lt_Some _ _ _ Ht) as Hlt.
          rewrite !(insert_take_drop _ _ _ Hlt), !bind_app, !bind_cons. done. }
        rewrite <- Hgot. solve_Permutation.
      * rewrite <- Hover. solve_Permutation.
    + injection Hstep as <-. simpl.
      pose proof (bind_insert_perm pending_request _ tid _ Terminated Ht) as Hover.
      simpl in Hover. by rewrite Hover.
Qed.

Lemma requests_exec sched : forall s s',
  exec sched s = Some s' -> requests_accounted s' ≡ₚ requests_accounted s.
Proof.
  induction sched as [|a sched IH]; intros s s'; simpl.
  - by intros [= <-].
  - destruct (step a s) as [s1|] eqn:Hstep; [|done].
    intros Hexec. rewrite (IH _ _ Hexec). by eapply requests_step.
Qed.

Lemma terminated_no_request (ts : list thread) :
  Forall (fun t => t = Terminated) ts -> ts ≫= pending_request = [].
Proof.
  induction 1 as [|t ts -> _ IH]; [done|]. by rewrite bind_cons, IH.
Qed.

(** X1: when [run_parallel] has returned, each link has been requested
    once and only once, with the timeout of 5 seconds, whatever the
    schedule: the requests made are those for the links, in some order. *)
Theorem run_parallel_requests_once links sched s rs :
  exec sched (init links) = Some s ->
  returned_value s = Some rs ->
  log s ≡ₚ (fun link => Request link 5) <$> links.
Proof.
  intros Hexec Hret.
  pose proof (requests_exec _ _ _ Hexec) as Hreq.
  destruct (invariant_exec network _ _ _ _ (invariant_init network links) Hexec)
    as [_ Hpc].
  unfold requests_accounted, returned_value in *.
  destruct (pc s) as [rest|k|value]; try done. destruct Hpc as [_ Hall].
  simpl in Hreq. rewrite (terminated_no_request _ Hall) in Hreq.
  by rewrite !app_nil_r in Hreq.
Qed.

(** X2: a run of [run_parallel] on [n] links has at most [4 * n + 2]
    steps (for each link a start, a fetch, an append and a join, then the
    end of the two loops): no schedule keeps it going for ever. *)
Theorem run_parallel_steps_bounded links sched s :
  exec sched (init links) = Some s ->
  length sched <= 4 * length links + 2.
Proof.
  intros Hexec%exec_fuel. unfold fuel in Hexec at 2. simpl in Hexec. lia.
Qed.

Lemma values_of_length links : length (values_of links) <= length links.
Proof.
  induction links as [|link rest IH]; [done|].
  rewrite values_of_cons, length_app. simpl.
  destruct (fetch_outcome link); simpl; lia.
Qed.

Lemma values_of_shorter links i link e :
  links !! i = Some link -> fetch_outcome link = Raised e ->
  length (values_of links) < length links.
Proof.
  revert i. induction links as [|l rest IH]; intros i Hi He; [done|].
  rewrite values_of_cons, length_app. simpl. destruct i as [|i]; simpl in Hi.
  - injection Hi as ->. rewrite He. simpl.
    pose proof (values_of_length rest). lia.
  - specialize (IH _ Hi He). destruct (fetch_outcome l); simpl; lia.
Qed.

(** X3: when [get_html] raises in a worker (an exception that is not one
    of [requests]), the thread ends without an [append] and nothing tells
    the caller: [run_parallel] returns as usual, with a list that has
    fewer entries than there are links. *)
Theorem run_parallel_drops_failed_worker links i link e sched rs :
  links !! i = Some link ->
  network link 5 = Raised e ->
  is_RequestException e = false ->
  run_parallel links sched = Some rs ->
  length rs < length links.
Proof.
  intros Hi He Hreq Hrun%run_parallel_values.
  rewrite (Permutation_length Hrun). eapply values_of_shorter; [done|].
  unfold Level3.fetch_outcome. by rewrite He, Hreq.
Qed.

(** X4: [run_sequential] stops at the first link for which [get_html]
    raises: the exception leaves [run_sequential], the results gathered so
    far are lost, and the links that follow are not requested. *)
Theorem run_sequential_stops_at_exception before link after e log :
  Forall (request_failure_only network) before ->
  network link 5 = Raised e ->
  is_RequestException e = false ->
  run_sequential (before ++ link :: after) log =
    (log ++ ((fun l => Request l 5) <$> before ++ [link]), Raised e).
Proof.
  intros Hbefore He Hreq. rewrite run_sequential_comprehension.
  revert log. induction Hbefore as [|l before Hl _ IH]; intros log; simpl.
  - unfold bind at 1. rewrite get_html_eq. unfold Level3.fetch_outcome.
    by rewrite He, Hreq.
  - unfold bind at 1. rewrite get_html_eq, (request_failure_only_returns _ _ Hl).
    unfold bind at 1. rewrite IH. by rewrite <- app_assoc.
Qed.

(** *** Any order of completion can happen *)

Lemma spawn_all rest : forall ts rs lg sched,
  exec (replicate (length rest) Main ++ sched) (State (Spawning rest) ts rs lg)
  = exec sched (State (Spawning []) (ts ++ (Fetching <$> rest)) rs lg).
Proof.
  induction rest as [|link rest IH]; intros ts rs lg sched; simpl.
  - by rewrite app_nil_r.
  - rewrite IH, <- app_assoc. reflexivity.
Qed.

Lemma fetch_all rest vals :
  Forall2 (fun link v => fetch_outcome link = Returned v) rest vals ->
  forall finished p rs lg sched,
    exec ((Worker <$> seq (length finished) (length rest)) ++ sched)
         (State p (finished ++ (Fetching <$> rest)) rs lg)
    = exec sched (State p (finished ++ (Appending <$> vals)) rs
                          (lg ++ ((fun link => Request link 5) <$> rest))).
Proof.
  induction 1 as [|link v rest vals Hv _ IH]; intros finished p rs lg sched; simpl.
  - by rewrite !app_nil_r.
  - unfold worker_step. simpl.
    rewrite list_lookup_middle by done. rewrite get_html_eq, Hv.
    rewrite insert_app_r_alt by done. rewrite Nat.sub_diag. simpl.
    specialize (IH (finished ++ [Appending v]) p rs (lg ++ [Request link 5]) sched).
    rewrite length_app in IH. simpl in IH.
    rewrite Nat.add_1_r, <- !app_assoc in IH. simpl in IH. exact IH.
Qed.

Lemma append_in_order order : forall ts p rs lg sched,
  NoDup order ->
  (forall tid, tid ∈ order -> exists v, ts !! tid = Some (Appending v)) ->
  exec ((Worker <$> order) ++ sched) (State p ts rs lg)
  = exec sched (State p (terminate order ts) (rs ++ (order ≫= appending ts)) lg).
Proof.
  induction order as [|tid order IH]; intros ts p rs lg sched Hnodup Hts; simpl.
  - by rewrite app_nil_r.
  - apply NoDup_cons in Hnodup as [Hnotin Hnodup].
    destruct (Hts tid) as [v Hv]; [by left|].
    unfold worker_step. simpl. rewrite Hv.
    assert (forall tid', tid' ∈ order ->
              <[tid := Terminated]> ts !! tid' = ts !! tid') as Hsame.
    { intros tid' Hin. apply list_lookup_insert_ne. by intros ->. }
    assert (order ≫= appending (<[tid := Terminated]> ts) = order ≫= appending ts)
      as Hbind.
    { apply Forall_bind_ext, Forall_forall.
      intros tid' Hin. unfold appending. by rewrite Hsame. }
    rewrite IH; [|done|].
    + unfold appending at 2. rewrite Hv, <- app_assoc. simpl.
      rewrite Hbind. reflexivity.
    + intros tid' Hin. rewrite Hsame by done. apply Hts. by right.
Qed.

Lemma terminated_kept order : forall (ts : list thread) i,
  ts !! i = Some Terminated -> terminate order ts !! i = Some Terminated.
Proof.
  induction order as [|tid order IH]; intros ts i Hi; simpl; [done|].
  apply IH. destruct (decide (tid = i)) as [->|Hne].
  - apply list_lookup_insert_eq. by eapply lookup_lt_Some.
  - by rewrite list_lookup_insert_ne.
Qed.

Lemma terminate_length order : forall ts, length (terminate order ts) = length ts.
Proof.
  induction order as [|tid order IH]; intros ts; simpl; [done|].
  by rewrite IH, length_insert.
Qed.

Lemma terminate_lookup order : forall (ts : list thread) i,
  i ∈ order -> i < length ts -> terminate order ts !! i = Some Terminated.
Proof.
  induction order as [|tid order IH]; intros ts i Hin Hlt; simpl.
  - by apply elem_of_nil in Hin.
  - destruct (decide (i = tid)) as [->|Hne].
    + apply terminated_kept. by apply list_lookup_insert_eq.
    + apply IH; [|by rewrite length_insert].
      apply elem_of_cons in Hin as [?|?]; done.
Qed.

Lemma join_all n : forall ts k rs lg sched,
  Forall (fun t => t = Terminated) ts ->
  k + n = length ts ->
  exec (replicate n Main ++ sched) (State (Joining k) ts rs lg)
  = exec sched (State (Joining (length ts)) ts rs lg).
Proof.
  induction n as [|n IH]; intros ts k rs lg sched Hall Hk; simpl.
  - by replace k with (length ts) by lia.
  - unfold main_step. simpl.
    destruct (lookup_lt_is_Some_2 ts k) as [t Ht]; [lia|].
    rewrite Ht, (Forall_lookup_1 _ _ _ _ Hall Ht). apply IH; [done|lia].
Qed.

Lemma appending_values (vals : list string) order :
  Forall (fun tid => tid < length vals) order ->
  Forall2 (fun v tid => vals !! tid = Some v)
          (order ≫= appending (Appending <$> vals)) order.
Proof.
  induction 1 as [|tid order Hlt _ IH]; [constructor|].
  rewrite bind_cons. unfold appending at 1. rewrite list_lookup_fmap.
  destruct (lookup_lt_is_Some_2 vals tid Hlt) as [v Hv]. rewrite Hv. simpl.
  by constructor.
Qed.

(** X5: the order of the results of [run_parallel] is not bound by the
    order of the links in any way: when every fetch returns, for each
    order of the workers (each rearrangement of the indices of [links])
    there is a run in which the results are returned in that order. *)
Theorem run_parallel_any_order links order :
  Forall (request_failure_only network) links ->
  order ≡ₚ seq 0 (length links) ->
  exists rs,
    run_parallel links (completing_in order) = Some rs /\
    Forall2 (fun v tid =>
               exists link, links !! tid = Some link /\ result_for network link v)
            rs order.
Proof.
  intros Hall%request_failure_only_all Horder.
  pose proof (values_of_returned _ _ Hall) as Hvals.
  pose proof (Forall2_length _ _ _ Hvals) as Hlen.
  assert (length order = length links) as Hn.
  { by rewrite Horder, length_seq. }
  assert (Forall (fun tid => tid < length (values_of links)) order) as Hlt.
  { apply Forall_forall. intros tid Hin. rewrite Horder in Hin.
    apply elem_of_seq in Hin. lia. }
  exists (order ≫= appending (Appending <$> values_of links)). split.
  - unfold Level3.run_parallel, completing_in, init. rewrite Hn.
    rewrite spawn_all. simpl.
    rewrite (fetch_all _ _ Hvals []). simpl.
    rewrite append_in_order.
    + rewrite join_all.
      * simpl. unfold main_step. simpl.
        rewrite (lookup_ge_None_2 _ (length _)) by done. done.
      * apply Forall_lookup_2. intros i t Hi.
        pose proof (lookup_lt_Some _ _ _ Hi) as Hi'.
        rewrite terminate_length, length_fmap in Hi'.
        rewrite terminate_lookup in Hi; [by injection Hi as <-| |by rewrite length_fmap].
        rewrite Horder. apply elem_of_seq. lia.
      * by rewrite terminate_length, length_fmap, <- Hlen.
    + rewrite Horder. apply NoDup_seq.
    + intros tid Hin. rewrite list_lookup_fmap.
      destruct (lookup_lt_is_Some_2 (values_of links) tid) as [v Hv].
      { by eapply Forall_forall in Hlt. }
      exists v. by rewrite Hv.
  - eapply Forall2_impl; [by apply appending_values|]. simpl.
    intros v tid Hv.
    destruct (Forall2_lookup_r _ _ _ _ _ Hvals Hv) as (link & Hlink & Hout).
    exists link. split; [done|]. by apply result_for_outcome.
Qed.

End Level3_runs.

(** ** More on level4.py: processing a file *)

Lemma getitem_column {S} df name (s : S) :
  getitem df name s =
    match column df name with
    | Some cells => (s, Returned cells)
    | None => (s, Raised (Exn OtherException ("'" +:+ name +:+ "'")))
    end.
Proof.
  unfold getitem, column. by destruct (list_find _ _) as [[i c]|].
Qed.

Lemma column_has df name : has_column name df = true <-> is_Some (column df name).
Proof.
  unfold has_column, column, labels. rewrite bool_decide_eq_true. split.
  - intros (c & -> & Hc)%list_elem_of_fmap.
    destruct (list_find_elem_of (fun c' => c'.1 = c.1) _ c Hc eq_refl) as [[i c'] ->].
    by eexists.
  - intros [cells Hcells].
    destruct (list_find _ _) as [[i c]|] eqn:Hfind; [|done].
    apply list_find_Some in Hfind as (Hi & <- & _).
    apply list_elem_of_fmap. exists c. split; [done|].
    by eapply list_elem_of_lookup_2.
Qed.

(** The column just set is the first of its name. *)
Lemma setitem_find df name cells :
  exists i,
    list_find (fun c => c.1 = name) (columns (setitem df name cells))
    = Some (i, (name, cells)).
Proof.
  unfold setitem.
  destruct (list_find _ (columns df)) as [[i c]|] eqn:Hfind; simpl.
  - apply list_find_Some in Hfind as (Hi & Hname & Hfirst).
    exists i. apply list_find_Some. split; [|split; [done|]].
    + apply list_lookup_insert_eq. by eapply lookup_lt_Some.
    + intros j y Hj Hlt. rewrite list_lookup_insert_ne in Hj by lia. by eapply Hfirst.
  - apply list_find_None in Hfind.
    exists (length (columns df)). apply list_find_Some. split; [|split; [done|]].
    + by apply list_lookup_middle.
    + intros j y Hj Hlt. rewrite lookup_app_l in Hj by done.
      by eapply (Forall_lookup_1 _ _ _ _ Hfind).
Qed.

Lemma column_setitem_same df name cells :
  column (setitem df name cells) name = Some cells.
Proof.
  unfold column. by destruct (setitem_find df name cells) as [i ->].
Qed.

Lemma list_find_insert_other {A} (P : A -> Prop) `{forall x, Decision (P x)}
    (l : list A) : forall i x y,
  l !! i = Some y -> ~ P x -> ~ P y -> list_find P (<[i := x]> l) = list_find P l.
Proof.
  induction l as [|z l IH]; intros i x y Hi Hx Hy; [done|].
  destruct i as [|i]; simpl in *.
  - injection Hi as ->. by rewrite !decide_False.
  - destruct (decide (P z)); [done|]. by erewrite IH.
Qed.

Lemma list_find_snoc_other {A} (P : A -> Prop) `{forall x, Decision (P x)}
    (l : list A) x :
  ~ P x -> list_find P (l ++ [x]) = list_find P l.
Proof.
  intros Hx. induction l as [|z l IH]; simpl.
  - by rewrite decide_False.
  - destruct (decide (P z)); [done|]. by rewrite IH.
Qed.

Lemma column_setitem_other df name cells name' :
  name' <> name -> column (setitem df name cells) name' = column df name'.
Proof.
  intros Hne. unfold column, setitem.
  destruct (list_find (fun c => c.1 = name) (columns df)) as [[i c]|] eqn:Hfind; simpl.
  - apply list_find_Some in Hfind as (Hi & Hname & _).
    rewrite (list_find_insert_other _ _ i (name, cells) c); [done|done| |].
    + simpl. congruence.
    + congruence.
  - rewrite list_find_snoc_other; [done|]. simpl. congruence.
Qed.

(** Setting a column to the cells it has changes nothing. *)
Lemma setitem_again df name cells :
  setitem (setitem df name cells) name cells = setitem df name cells.
Proof.
  destruct (setitem_find df name cells) as [i Hfind].
  unfold setitem at 1. rewrite Hfind.
  apply list_find_Some in Hfind as (Hi & _).
  rewrite list_insert_id by done. by destruct (setitem df name cells).
Qed.

(** *** 64-bit arithmetic *)

Lemma wrap64_mod z : (wrap64 z mod 2 ^ 64 = z mod 2 ^ 64)%Z.
Proof.
  unfold wrap64. rewrite Zminus_mod_idemp_l. f_equal. lia.
Qed.

Lemma wrap64_congr a b : (a mod 2 ^ 64 = b mod 2 ^ 64)%Z -> wrap64 a = wrap64 b.
Proof.
  intros H. unfold wrap64.
  by rewrite (Z.add_mod a), H, <- Z.add_mod.
Qed.

Lemma wrap64_add a b : wrap64 (wrap64 a + wrap64 b) = wrap64 (a + b).
Proof.
  apply wrap64_congr.
  by rewrite Z.add_mod, !wrap64_mod, <- Z.add_mod.
Qed.

(** A number of the 64-bit range is left as it is. *)
Lemma wrap64_small z : (- 2 ^ 63 <= z < 2 ^ 63)%Z -> wrap64 z = z.
Proof.
  intros H. unfold wrap64. rewrite Z.mod_small; lia.
Qed.

(** The sum of the products as [pandas] computes it is the exact sum,
    taken round. *)
Lemma sum_products price : forall quantity,
  foldr (fun c acc => wrap64 (c + acc)) 0%Z (products price quantity)
  = wrap64 (sum_of_products price quantity).
Proof.
  unfold products, sum_of_products.
  induction price as [|p price IH]; intros [|q quantity]; simpl; try done.
  by rewrite IH, wrap64_add.
Qed.

Section Level4_processing.

Variable basename : string -> string.
Variable repr_labels : list string -> string.
Variable workbook_size : DataFrame -> Z.
Variable create_raises : string -> option exn.
Variable other_mul : series -> series -> series + string.
Variable other_sum : series -> scalar + string.

Local Abbreviation calculate_new_column :=
  (Level4.calculate_new_column basename repr_labels workbook_size create_raises
     other_mul other_sum).
Local Abbreviation series_mul := (Level4.series_mul other_mul).
Local Abbreviation series_sum := (Level4.series_sum other_sum).
Local Abbreviation processable := (Tables.processable other_mul other_sum).

(** The file after the column [Total] has been written to it. *)
Local Abbreviation rewritten df product :=
  (File (workbook_size (with_total df product)) (Returned (with_total df product))
        None).

(** What the call comes to once the product is there. *)
Local Abbreviation outcome_of filename df product :=
  (match series_sum product with
   | inl total =>
       Returned (VDict (Summary filename ["Total"] total (nrows df) "успешно"))
   | inr msg =>
       Returned (VStr (processing_error_message basename filename
                         (Exn OtherException msg)))
   end).

Lemma with_total_nrows df product : nrows (with_total df product) = nrows df.
Proof.
  unfold with_total, setitem. by destruct (list_find _ _) as [[i c]|].
Qed.

Lemma with_total_again df product :
  with_total (with_total df product) product = with_total df product.
Proof. unfold with_total. apply setitem_again. Qed.

(** What [calculate_new_column] does to a file whose product can be
    computed and written: the file is written over, and the sum is
    computed after that. *)
Lemma calculate_new_column_written fs filename f df price quantity product :
  fs !! filename = Some f ->
  file_size f <> 0%Z ->
  read_gives f = Returned df ->
  column df "Price" = Some price ->
  column df "Quantity" = Some quantity ->
  series_mul price quantity = inl product ->
  write_raises f = None ->
  calculate_new_column filename fs =
    (<[filename := rewritten df product]> fs, outcome_of filename df product).
Proof.
  intros Hf Hsize%Z.eqb_neq Hread Hprice Hquantity Hmul Hwrite.
  assert (has_column "Price" df = true) as Hp by (apply column_has; by eexists).
  assert (has_column "Quantity" df = true) as Hq by (apply column_has; by eexists).
  unfold Level4.calculate_new_column, try_except, bind,
    os_path_exists, os_path_getsize, pd_read_excel.
  rewrite Hf. simpl. rewrite Hf, Hsize. simpl. rewrite Hf, Hread, Hp, Hq. simpl.
  rewrite getitem_column, Hprice, getitem_column, Hquantity, Hmul. simpl.
  unfold to_excel, write_failure. rewrite Hf, Hwrite.
  rewrite getitem_column, column_setitem_same.
  change (setitem df "Total" product) with (with_total df product).
  rewrite with_total_nrows.
  by destruct (Level4.series_sum other_sum product) as [total|msg].
Qed.

(** The files are as they were, unless the product could be computed and
    written. *)
Lemma calculate_new_column_cases fs filename :
  (calculate_new_column filename fs).1 = fs \/
  exists f df price quantity product,
    fs !! filename = Some f /\ file_size f <> 0%Z /\
    read_gives f = Returned df /\
    column df "Price" = Some price /\ column df "Quantity" = Some quantity /\
    series_mul price quantity = inl product /\
    write_raises f = None.
Proof.
  unfold Level4.calculate_new_column, try_except, bind,
    os_path_exists, os_path_getsize, pd_read_excel.
  destruct (fs !! filename) as [f|] eqn:Hf; simpl; [|by left].
  rewrite Hf. destruct (file_size f =? 0)%Z eqn:Hsize; [by left|].
  simpl. rewrite Hf.
  destruct (read_gives f) as [df|e] eqn:Hread; [|destruct (is_Exception e); by left].
  destruct (has_column "Price" df) eqn:Hp; simpl; [|by left].
  destruct (has_column "Quantity" df) eqn:Hq; simpl; [|by left].
  apply column_has in Hp as [price Hprice].
  apply column_has in Hq as [quantity Hquantity].
  rewrite getitem_column, Hprice, getitem_column, Hquantity.
  destruct (Level4.series_mul other_mul price quantity) as [product|msg] eqn:Hmul;
    [|by left].
  simpl. unfold to_excel, write_failure. rewrite Hf.
  destruct (write_raises f) as [e|] eqn:Hwrite;
    [destruct (is_Exception e); by left|].
  right. exists f, df, price, quantity, product.
  apply Z.eqb_neq in Hsize. done.
Qed.

(** A dictionary is returned only for a file that could be processed. *)
Lemma calculate_new_column_dict fs filename fs' d :
  calculate_new_column filename fs = (fs', Returned (VDict d)) ->
  processable fs filename.
Proof.
  unfold Level4.calculate_new_column, try_except, bind,
    os_path_exists, os_path_getsize, pd_read_excel.
  destruct (fs !! filename) as [f|] eqn:Hf; simpl; [|done].
  rewrite Hf. destruct (file_size f =? 0)%Z eqn:Hsize; [done|].
  simpl. rewrite Hf.
  destruct (read_gives f) as [df|e] eqn:Hread; [|by destruct (is_Exception e)].
  destruct (has_column "Price" df) eqn:Hp; simpl; [|done].
  destruct (has_column "Quantity" df) eqn:Hq; simpl; [|done].
  apply column_has in Hp as [price Hprice].
  apply column_has in Hq as [quantity Hquantity].
  rewrite getitem_column, Hprice, getitem_column, Hquantity.
  destruct (Level4.series_mul other_mul price quantity) as [product|msg] eqn:Hmul;
    [|done].
  simpl. unfold to_excel, write_failure. rewrite Hf.
  destruct (write_raises f) as [e|] eqn:Hwrite; [by destruct (is_Exception e)|].
  rewrite getitem_column, column_setitem_same.
  destruct (Level4.series_sum other_sum product) as [total|msg] eqn:Hsum; [|done].
  intros _. exists f, df, price, quantity, product, total.
  apply Z.eqb_neq in Hsize. done.
Qed.

(** The files on disk after the call: those before, or those before with
    a new workbook at [filename]. *)
Lemma calculate_new_column_writes fs filename :
  (calculate_new_column filename fs).1 = fs \/
  exists file', (calculate_new_column filename fs).1 = <[filename := file']> fs.
Proof.
  destruct (calculate_new_column_cases fs filename)
    as [Hsame|(f & df & price & quantity & product & Hf & Hsize & Hread & Hp & Hq & Hmul & Hw)].
  - by left.
  - right. eexists.
    by rewrite (calculate_new_column_written _ _ _ _ _ _ _ Hf Hsize Hread Hp Hq Hmul Hw).
Qed.

(** X6: for a file that is there, not empty, can be written over and
    holds a table whose columns [Price] and [Quantity] are of the dtype
    [int64], [calculate_new_column] returns the dictionary with the number
    of rows and with the sum of the products [Price * Quantity] as 64-bit
    arithmetic gives it (the exact sum when nothing overflows, the sum
    taken round by [2^64] otherwise); the file then reads back as the
    table with the column [Total] holding the 64-bit products, [Price] and
    [Quantity] being as before. *)
Theorem calculate_new_column_adds_total fs filename f df price quantity :
  fs !! filename = Some f ->
  file_size f <> 0%Z ->
  read_gives f = Returned df ->
  column df "Price" = Some (Int64 price) ->
  column df "Quantity" = Some (Int64 quantity) ->
  Forall int64 price ->
  Forall int64 quantity ->
  write_raises f = None ->
  exists fs' df',
    calculate_new_column filename fs =
      (fs', Returned (VDict (Summary filename ["Total"]
                               (SInt (wrap64 (sum_of_products price quantity)))
                               (nrows df) "успешно"))) /\
    pd_read_excel filename fs' = (fs', Returned df') /\
    column df' "Total" = Some (Int64 (products price quantity)) /\
    column df' "Price" = Some (Int64 price) /\
    column df' "Quantity" = Some (Int64 quantity) /\
    nrows df' = nrows df /\
    ((- 2 ^ 63 <= sum_of_products price quantity < 2 ^ 63)%Z ->
     wrap64 (sum_of_products price quantity) = sum_of_products price quantity).
Proof.
  intros Hf Hsize Hread Hprice Hquantity _ _ Hwrite.
  eexists _, (with_total df (Int64 (products price quantity))).
  split; [|split; [|split; [|split; [|split; [|split]]]]].
  - rewrite (calculate_new_column_written _ _ _ _ _ _ (Int64 (products price quantity))
               Hf Hsize Hread Hprice Hquantity eq_refl Hwrite).
    simpl. by rewrite sum_products.
  - unfold pd_read_excel. by rewrite lookup_insert_eq.
  - apply column_setitem_same.
  - unfold with_total. by rewrite column_setitem_other.
  - unfold with_total. by rewrite column_setitem_other.
  - apply with_total_nrows.
  - apply wrap64_small.
Qed.

(** X7: [calculate_new_column] returns a dictionary exactly for the files
    that can be processed: those that are there, are not empty, hold a
    table with the columns [Price] and [Quantity] whose product and its
    sum [pandas] can compute, and can be written over. In every other case
    (text in a column that cannot be multiplied, for one) what comes out is
    a string or an exception. *)
Theorem calculate_new_column_dict_iff fs filename :
  (exists fs' d, calculate_new_column filename fs = (fs', Returned (VDict d)))
  <-> processable fs filename.
Proof.
  split.
  - intros (fs' & d & Hrun). by eapply calculate_new_column_dict.
  - intros (f & df & price & quantity & product & total
            & Hf & Hsize & Hread & Hp & Hq & Hmul & Hw & Hsum).
    eexists _, _.
    rewrite (calculate_new_column_written _ _ _ _ _ _ _ Hf Hsize Hread Hp Hq Hmul Hw).
    by rewrite Hsum.
Qed.

(** X8: [calculate_new_column(filename)] reads and writes no file but
    [filename]: whatever happens, every other file is after the call what
    it was before. *)
Theorem calculate_new_column_other_files_untouched fs filename other :
  other <> filename ->
  (calculate_new_column filename fs).1 !! other = fs !! other.
Proof.
  intros Hne. destruct (calculate_new_column_writes fs filename) as [->|[file' ->]].
  - done.
  - by rewrite lookup_insert_ne.
Qed.

(** X9: processing a file a second time changes nothing: when a written
    workbook is never an empty file, a second call of
    [calculate_new_column] on the same name gives the same outcome as the
    first and leaves the files as the first left them. *)
Theorem calculate_new_column_idempotent fs filename fs1 o :
  (forall df, workbook_size df <> 0%Z) ->
  calculate_new_column filename fs = (fs1, o) ->
  calculate_new_column filename fs1 = (fs1, o).
Proof.
  intros Hsize Hrun.
  destruct (calculate_new_column_cases fs filename)
    as [Hsame|(f & df & price & quantity & product & Hf & Hnz & Hread & Hp & Hq & Hmul & Hw)].
  - rewrite Hrun in Hsame. simpl in Hsame. by subst fs1.
  - rewrite (calculate_new_column_written _ _ _ _ _ _ _ Hf Hnz Hread Hp Hq Hmul Hw)
      in Hrun.
    injection Hrun as <- <-.
    rewrite (calculate_new_column_written _ filename
               (File (workbook_size (with_total df product))
                     (Returned (with_total df product)) None)
               (with_total df product) price quantity product).
    + by rewrite !with_total_again, insert_insert_eq, with_total_nrows.
    + by rewrite lookup_insert_eq.
    + apply Hsize.
    + done.
    + unfold with_total. by rewrite column_setitem_other.
    + unfold with_total. by rewrite column_setitem_other.
    + done.
    + done.
Qed.

End Level4_processing.

(** ** More on level4.py: removing the files *)

Section Cleanup_properties.

Variable remove_raises : string -> option exn.

Local Abbreviation cleanup_old_files := (Files.cleanup_old_files remove_raises).
Local Abbreviation removes := (Files.removes remove_raises).

Lemma removes_cons filename rest path :
  removes (filename :: rest) path =
    (bool_decide (path = filename) && bool_decide (remove_raises path = None))
    || removes rest path.
Proof.
  unfold Files.removes.
  destruct (decide (path = filename)) as [->|Hne].
  - rewrite (bool_decide_eq_true_2 (filename = filename)); [|done].
    rewrite (bool_decide_eq_true_2 (filename ∈ filename :: rest)); [|by left].
    simpl.
    by destruct (bool_decide (remove_raises filename = None)),
                (bool_decide (filename ∈ rest)).
  - rewrite (bool_decide_eq_false_2 (path = filename)) by done. simpl.
    f_equal. apply bool_decide_ext. rewrite elem_of_cons. tauto.
Qed.

Lemma cleanup_old_files_eq filenames : forall fs : gmap string file,
  (forall path e, path ∈ filenames -> remove_raises path = Some e ->
     is_Exception e = true) ->
  exists fs',
    cleanup_old_files filenames fs = (fs', Returned tt) /\
    forall path, fs' !! path = if removes filenames path then None else fs !! path.
Proof.
  induction filenames as [|filename rest IH]; intros fs Hexn; simpl.
  - by exists fs.
  - assert (exists fs1,
              (do removed <-
                 (if bool_decide (is_Some (fs !! filename))
                  then try_except (os_remove remove_raises filename) is_Exception
                         (fun e => ret tt)
                  else ret tt);;
               cleanup_old_files rest) fs
              = cleanup_old_files rest fs1 /\
              forall path,
                fs1 !! path =
                  if bool_decide (path = filename)
                     && bool_decide (remove_raises path = None)
                  then None else fs !! path) as (fs1 & Hrun & Hfs1).
    { unfold bind at 1, try_except, os_remove, ret.
      destruct (fs !! filename) as [f|] eqn:Hf; simpl.
      - rewrite Hf. destruct (remove_raises filename) as [e|] eqn:Hr.
        + rewrite (Hexn filename e); [|by left|done].
          exists fs. split; [done|]. intros path.
          destruct (decide (path = filename)) as [->|Hne].
          * rewrite Hr. by rewrite andb_false_r.
          * by rewrite (bool_decide_eq_false_2 (path = filename)).
        + exists (delete filename fs). split; [done|]. intros path.
          destruct (decide (path = filename)) as [->|Hne].
          * rewrite Hr, lookup_delete_eq. by rewrite !bool_decide_eq_true_2.
          * rewrite lookup_delete_ne by done.
            by rewrite (bool_decide_eq_false_2 (path = filename)).
      - exists fs. split; [done|]. intros path.
        destruct (decide (path = filename)) as [->|Hne].
        + rewrite Hf. by destruct (_ && _).
        + by rewrite (bool_decide_eq_false_2 (path = filename)). }
    unfold bind at 1, os_path_exists. rewrite Hrun.
    destruct (IH fs1) as (fs' & Hrest & Hfs').
    { intros path e Hin. apply Hexn. by right. }
    exists fs'. split; [done|]. intros path.
    rewrite Hfs', Hfs1, removes_cons.
    by destruct (bool_decide (path = filename) && _), (removes rest path).
Qed.

(** X11: [cleanup_old_files] raises nothing when [os.remove] fails in the
    ordinary way, and afterwards a file is gone exactly when it was in the
    list and could be removed: the files it could not remove and all the
    files that are not in the list are as they were. *)
Theorem cleanup_old_files_removes_listed filenames (fs : gmap string file) :
  (forall path e, path ∈ filenames -> remove_raises path = Some e ->
     is_Exception e = true) ->
  exists fs',
    cleanup_old_files filenames fs = (fs', Returned tt) /\
    (forall path, path ∈ filenames -> remove_raises path = None ->
       fs' !! path = None) /\
    (forall path, path ∈ filenames -> remove_raises path <> None ->
       fs' !! path = fs !! path) /\
    (forall path, path ∉ filenames -> fs' !! path = fs !! path).
Proof.
  intros Hexn. destruct (cleanup_old_files_eq filenames fs Hexn) as (fs' & Hrun & Hfs').
  exists fs'. split; [done|]. unfold Files.removes in Hfs'. repeat split.
  - intros path Hin Hr. rewrite Hfs'. by rewrite !bool_decide_eq_true_2.
  - intros path Hin Hr. rewrite Hfs'.
    by rewrite (bool_decide_eq_false_2 (remove_raises path = None)), andb_false_r.
  - intros path Hin. rewrite Hfs'. by rewrite (bool_decide_eq_false_2 (path ∈ filenames)).
Qed.

End Cleanup_properties.

(** ** More on level4.py: making and fetching the files *)

Section Files_properties.

Variable dirname : string -> string.
Variable makedirs_raises : string -> option exn.
Variable remove_raises : string -> option exn.
Variable workbook_size : DataFrame -> Z.
Variable create_raises : string -> option exn.

Local Abbreviation create_sample_excel_file :=
  (Files.create_sample_excel_file dirname makedirs_raises workbook_size create_raises).
Local Abbreviation cleanup_old_files := (Files.cleanup_old_files remove_raises).
Local Abbreviation mock_download_file :=
  (Files.mock_download_file dirname makedirs_raises workbook_size create_raises).
Local Abbreviation gather :=
  (Files.gather dirname makedirs_raises workbook_size create_raises).
Local Abbreviation download_files :=
  (Files.download_files dirname makedirs_raises workbook_size create_raises).
Local Abbreviation written := (Files.written workbook_size).
Local Abbreviation creates := (Files.creates dirname makedirs_raises create_raises).
Local Abbreviation ordinary_failures :=
  (Files.ordinary_failures dirname makedirs_raises create_raises).
Local Abbreviation write_failure := (Level4.write_failure create_raises).
Local Abbreviation removes := (Files.removes remove_raises).

(** *** [create_sample_excel_file] *)

Lemma create_sample_excel_file_eq (fs : gmap string file) filename :
  ordinary_failures fs filename ->
  create_sample_excel_file filename fs =
    (if creates fs filename then <[filename := written]> fs else fs,
     Returned (creates fs filename)).
Proof.
  intros [Hmake Hwrite].
  unfold Files.create_sample_excel_file, Files.creates, try_except, bind,
    os_makedirs, to_excel.
  destruct (makedirs_raises _) as [e|] eqn:Hm; simpl.
  { by rewrite (Hmake e eq_refl). }
  destruct (write_failure fs filename) as [e|] eqn:Hw; [|done].
  by rewrite (Hwrite _ eq_refl).
Qed.

(** X10: [create_sample_excel_file] answers [True] exactly when the
    directory could be made and the file written, and it has then written
    the sample table to [filename] and changed nothing else; it answers
    [False] when [os.makedirs] or [to_excel] raises an exception of the
    class [Exception], and the files are then as they were. *)
Theorem create_sample_excel_file_reports (fs : gmap string file) filename :
  ordinary_failures fs filename ->
  exists fs' ok,
    create_sample_excel_file filename fs = (fs', Returned ok) /\
    (ok = true <->
       makedirs_raises (directory_of dirname filename) = None /\
       write_failure fs filename = None) /\
    (ok = true -> fs' = <[filename := written]> fs) /\
    (ok = false -> fs' = fs).
Proof.
  intros Hord. eexists _, _. split; [by apply create_sample_excel_file_eq|].
  unfold Files.creates.
  destruct (makedirs_raises (directory_of dirname filename)) as [e|];
    destruct (write_failure fs filename) as [e'|]; simpl;
    (split; [split; [done|by intros [? ?]]|done]).
Qed.

(** *** [download_files] *)

Local Abbreviation answer := (Files.answer dirname makedirs_raises create_raises).
Local Abbreviation file_after :=
  (Files.file_after dirname makedirs_raises workbook_size create_raises).
Local Abbreviation consistent :=
  (Files.consistent dirname makedirs_raises workbook_size create_raises).

Lemma mock_download_file_eq (fs : gmap string file) url filename :
  ordinary_failures fs filename ->
  mock_download_file url filename fs =
    (if creates fs filename then <[filename := written]> fs else fs,
     Returned (answer fs filename)).
Proof.
  intros Hord. unfold Files.mock_download_file, Files.answer, try_except, bind.
  rewrite create_sample_excel_file_eq by done.
  by destruct (creates fs filename).
Qed.

Lemma creates_same_file (fs fs0 : gmap string file) filename :
  fs !! filename = fs0 !! filename -> creates fs filename = creates fs0 filename.
Proof. intros H. unfold Files.creates, Level4.write_failure. by rewrite H. Qed.

Lemma ordinary_failures_same_file (fs fs0 : gmap string file) filename :
  fs !! filename = fs0 !! filename ->
  ordinary_failures fs0 filename -> ordinary_failures fs filename.
Proof.
  intros H [Hm Hw]. split; [done|]. intros e.
  unfold Level4.write_failure in *. rewrite H. apply Hw.
Qed.

Lemma sum_list_with_insert {A} (f : A -> nat) (l : list A) i x y :
  l !! i = Some x ->
  sum_list_with f (<[i := y]> l) + f x = sum_list_with f l + f y.
Proof.
  intros H. pose proof (lookup_lt_Some _ _ _ H) as Hlt.
  rewrite (insert_take_drop _ _ _ Hlt).
  rewrite <- (take_drop_middle l i x H) at 3.
  rewrite !sum_list_with_app. simpl. lia.
Qed.

Lemma consistent_init (fs0 : gmap string file) file_urls :
  consistent fs0 file_urls (tasks_of file_urls) fs0.
Proof.
  split; [|split].
  - unfold tasks_of. by rewrite length_fmap.
  - intros i item t Hitem Ht. unfold tasks_of in Ht.
    rewrite list_lookup_fmap, Hitem in Ht. injection Ht as <-. by left.
  - done.
Qed.

(** Waking up a task that is asleep: it answers, raises nothing, and the
    invariant is kept. *)
Lemma wake_up (fs0 fs : gmap string file) file_urls tasks i url filename :
  NoDup file_urls.*1 ->
  Forall (ordinary_failures fs0) file_urls.*1 ->
  consistent fs0 file_urls tasks fs ->
  tasks !! i = Some (Sleeping url filename) ->
  exists fs1 r,
    mock_download_file url filename fs = (fs1, Returned r) /\
    consistent fs0 file_urls (<[i := Done r]> tasks) fs1.
Proof.
  intros Hnodup Hord (Hlen & Htasks & Hrest) Hi.
  pose proof (lookup_lt_Some _ _ _ Hi) as Hlt.
  destruct (lookup_lt_is_Some_2 file_urls i) as [item Hitem]; [lia|].
  destruct (Htasks _ _ _ Hitem Hi) as [[Heq Hfile]|[Heq _]]; [|done].
  injection Heq as -> ->.
  assert (item.1 ∈ file_urls.*1) as Hin.
  { apply list_elem_of_fmap. exists item. split; [done|].
    by eapply list_elem_of_lookup_2. }
  assert (ordinary_failures fs item.1) as Hok.
  { eapply ordinary_failures_same_file; [done|].
    by eapply (proj1 (Forall_forall _ _) Hord). }
  rewrite (mock_download_file_eq _ _ _ Hok).
  eexists _, _. split; [done|].
  assert (forall path, path <> item.1 ->
            (if creates fs item.1 then <[item.1 := written]> fs else fs) !! path
            = fs !! path) as Hother.
  { intros path Hne. destruct (creates fs item.1); [|done].
    by rewrite lookup_insert_ne. }
  split; [by rewrite length_insert|]. split.
  - intros j item' t Hitem' Ht.
    apply list_lookup_insert_Some in Ht as [(<- & <- & _)|[Hne Ht]].
    + rewrite Hitem in Hitem'. injection Hitem' as <-. right.
      unfold Files.answer, Files.file_after.
      rewrite (creates_same_file _ _ _ Hfile). split; [done|].
      destruct (creates fs0 item.1); [by rewrite lookup_insert_eq|done].
    + assert (item'.1 <> item.1) as Hkey.
      { intros Hsame. apply Hne.
        eapply (NoDup_lookup _ _ _ _ Hnodup).
        - by rewrite list_lookup_fmap, Hitem.
        - rewrite list_lookup_fmap, Hitem'. simpl. by rewrite Hsame. }
      unfold Files.task_consistent. rewrite (Hother _ Hkey). by eapply Htasks.
  - intros path Hpath. rewrite Hother; [by apply Hrest|]. by intros ->.
Qed.

Lemma gather_consistent (fs0 : gmap string file) file_urls sched :
  NoDup file_urls.*1 ->
  Forall (ordinary_failures fs0) file_urls.*1 ->
  forall tasks fs fs' o,
    consistent fs0 file_urls tasks fs ->
    gather sched tasks fs = Some (fs', o) ->
    exists tasks', o = Returned tasks' /\ consistent fs0 file_urls tasks' fs'.
Proof.
  intros Hnodup Hord.
  induction sched as [|i sched IH]; intros tasks fs fs' o Hcons; simpl.
  - intros [= <- <-]. by exists tasks.
  - destruct (tasks !! i) as [[url filename|r]|] eqn:Hi; try done.
    destruct (wake_up _ _ _ _ _ _ _ Hnodup Hord Hcons Hi) as (fs1 & r & -> & Hcons1).
    by apply IH.
Qed.

(** Either all the tasks are over, or one is asleep. *)
Lemma over_or_asleep tasks :
  is_Some (results_of tasks) \/
  exists i url filename, tasks !! i = Some (Sleeping url filename).
Proof.
  induction tasks as [|t tasks IH]; [left; by eexists|].
  destruct t as [url filename|r]; [right; by exists 0, url, filename|].
  destruct IH as [[rs Hrs]|(i & url & filename & Hi)].
  - left. unfold results_of in *. simpl. rewrite Hrs. by eexists.
  - right. by exists (S i), url, filename.
Qed.

Lemma gather_can_finish (fs0 : gmap string file) file_urls n :
  NoDup file_urls.*1 ->
  Forall (ordinary_failures fs0) file_urls.*1 ->
  forall tasks fs,
    consistent fs0 file_urls tasks fs ->
    sum_list_with asleep tasks < n ->
    exists sched fs' tasks',
      gather sched tasks fs = Some (fs', Returned tasks') /\
      is_Some (results_of tasks').
Proof.
  intros Hnodup Hord.
  induction n as [|n IH]; intros tasks fs Hcons Hn; [lia|].
  destruct (over_or_asleep tasks) as [Hover|(i & url & filename & Hi)].
  - by exists [], fs, tasks.
  - destruct (wake_up _ _ _ _ _ _ _ Hnodup Hord Hcons Hi) as (fs1 & r & Hrun & Hcons1).
    pose proof (sum_list_with_insert asleep _ _ _ (Done r) Hi) as Hsum. simpl in Hsum.
    destruct (IH _ _ Hcons1) as (sched & fs' & tasks' & Hgather & Hover); [lia|].
    exists (i :: sched), fs', tasks'. simpl. by rewrite Hi, Hrun.
Qed.

(** The answers of the tasks once all are over. *)
Lemma results_consistent (fs0 fs : gmap string file)
    (file_urls : list (string * string)) tasks results :
  consistent fs0 file_urls tasks fs ->
  results_of tasks = Some results ->
  results = (fun item => answer fs0 item.1) <$> file_urls.
Proof.
  intros (Hlen & Htasks & _) Hres. unfold results_of in Hres.
  apply mapM_Some in Hres. pose proof (Forall2_length _ _ _ Hres) as Hlen'.
  apply list_eq. intros i. rewrite list_lookup_fmap.
  destruct (file_urls !! i) as [item|] eqn:Hitem; simpl.
  - destruct (lookup_lt_is_Some_2 tasks i) as [t Ht].
    { apply lookup_lt_Some in Hitem. lia. }
    destruct (Forall2_lookup_l _ _ _ _ _ Hres Ht) as (r & -> & Hr).
    destruct (Htasks _ _ _ Hitem Ht) as [[-> _]|[-> _]]; [done|].
    by injection Hr as <-.
  - apply lookup_ge_None. apply lookup_ge_None in Hitem. lia.
Qed.

Lemma answers_filter (fs0 : gmap string file) (file_urls : list (string * string)) :
  omap id ((fun item => answer fs0 item.1) <$> file_urls)
  = filter (fun filename => creates fs0 filename = true) file_urls.*1.
Proof.
  induction file_urls as [|item file_urls IH]; [done|].
  rewrite !fmap_cons. simpl. unfold Files.answer at 1.
  destruct (creates fs0 item.1) eqn:Hc; simpl.
  - rewrite filter_cons_True by done. f_equal. exact IH.
  - rewrite filter_cons_False; [exact IH|]. by rewrite Hc.
Qed.

Lemma files_consistent (fs0 fs : gmap string file)
    (file_urls : list (string * string)) tasks results path :
  consistent fs0 file_urls tasks fs ->
  results_of tasks = Some results ->
  fs !! path =
    if bool_decide (path ∈ file_urls.*1) && creates fs0 path
    then Some written else fs0 !! path.
Proof.
  intros (Hlen & Htasks & Hrest) Hres. unfold results_of in Hres.
  apply mapM_Some in Hres.
  destruct (decide (path ∈ file_urls.*1)) as [Hin|Hnotin].
  - rewrite bool_decide_eq_true_2 by done. simpl.
    apply list_elem_of_fmap in Hin as (item & -> & Hin).
    apply list_elem_of_lookup in Hin as [i Hitem].
    destruct (lookup_lt_is_Some_2 tasks i) as [t Ht].
    { apply lookup_lt_Some in Hitem. lia. }
    destruct (Forall2_lookup_l _ _ _ _ _ Hres Ht) as (r & _ & Hr).
    destruct (Htasks _ _ _ Hitem Ht) as [[-> _]|[_ Hfile]]; [done|].
    rewrite Hfile. unfold Files.file_after. by destruct (creates fs0 item.1).
  - rewrite bool_decide_eq_false_2 by done. simpl. by apply Hrest.
Qed.

(** What a run of [download_files] returns and leaves. *)
Lemma download_files_eq (fs : gmap string file)
    (file_urls : list (string * string)) sched fs' o :
  NoDup file_urls.*1 ->
  Forall (ordinary_failures fs) file_urls.*1 ->
  download_files sched file_urls fs = Some (fs', o) ->
  o = Returned (filter (fun filename => creates fs filename = true) file_urls.*1) /\
  forall path,
    fs' !! path =
      if bool_decide (path ∈ file_urls.*1) && creates fs path
      then Some written else fs !! path.
Proof.
  intros Hnodup Hord. unfold Files.download_files.
  destruct (gather sched (tasks_of file_urls) fs) as [[fs1 o1]|] eqn:Hgather; [|done].
  destruct (gather_consistent _ _ _ Hnodup Hord _ _ _ _
              (consistent_init fs file_urls) Hgather) as (tasks' & -> & Hcons).
  destruct (results_of tasks') as [results|] eqn:Hres; [|done].
  intros [= <- <-]. split.
  - by rewrite (results_consistent _ _ _ _ _ Hcons Hres), answers_filter.
  - intros path. by eapply files_consistent.
Qed.


Lemma filter_all {A} (P : A -> Prop) `{forall x, Decision (P x)} (l : list A) :
  Forall P l -> filter P l = l.
Proof.
  induction 1 as [|x l Hx _ IH]; [done|]. by rewrite filter_cons_True, IH.
Qed.


End Files_properties.

(** ** The stages of [main] together *)

Section Pipeline.

Variable basename : string -> string.
Variable repr_labels : list string -> string.
Variable dirname : string -> string.
Variable makedirs_raises : string -> option exn.
Variable workbook_size : DataFrame -> Z.
Variable create_raises : string -> option exn.
Variable other_mul : series -> series -> series + string.
Variable other_sum : series -> scalar + string.

(** X14: a file [mock_download_file] has made is one that
    [calculate_new_column] can process: when the directory can be made
    and the file written, and the workbook of the sample is not an empty
    file, the download answers with the name of the file, and the
    processing of that file returns the dictionary of a success, with the
    sum 1450 of the products of the sample and its 4 rows. *)
Theorem downloaded_file_is_processed (fs : gmap string file) url filename :
  Files.ordinary_failures dirname makedirs_raises create_raises fs filename ->
  Files.creates dirname makedirs_raises create_raises fs filename = true ->
  workbook_size sample_data <> 0%Z ->
  exists fs1 fs2,
    Files.mock_download_file dirname makedirs_raises workbook_size create_raises
      url filename fs = (fs1, Returned (Some filename)) /\
    Level4.calculate_new_column basename repr_labels workbook_size create_raises
      other_mul other_sum filename fs1 =
      (fs2, Returned (VDict (Summary filename ["Total"] (SInt 1450) 4 "успешно"))).
Proof.
  intros Hord Hcreates Hsize.
  exists (<[filename := Files.written workbook_size]> fs).
  eexists. split.
  - rewrite mock_download_file_eq by done. unfold Files.answer.
    by rewrite Hcreates.
  - rewrite (calculate_new_column_written _ _ _ _ _ _ _ _
               (Files.written workbook_size) sample_data
               (Int64 [100; 200; 150; 300]%Z) (Int64 [2; 1; 3; 2]%Z)
               (Int64 [200; 200; 450; 600]%Z));
      [done|by rewrite lookup_insert_eq|done..].
Qed.

End Pipeline.

(** ** The added properties at the sample inputs *)

(** X1 at the five links of the script, the fourth worker appending
    first. *)
Lemma run_parallel_requests_once_witness :
  exists s,
    exec network_one_down fourth_first (init test_links) = Some s /\
    log s ≡ₚ (fun link => Request link 5) <$> test_links.
Proof.
  eexists. split; [vm_compute; reflexivity|].
  eapply (run_parallel_requests_once network_one_down test_links fourth_first);
    vm_compute; reflexivity.
Defined.

(** X2 at the same run, which has 22 steps for 5 links. *)
Lemma run_parallel_steps_bounded_witness :
  length fourth_first <= 4 * length test_links + 2.
Proof.
  eapply (run_parallel_steps_bounded network_one_down test_links fourth_first).
  vm_compute. reflexivity.
Defined.

(** X3 at the five links of the script, the fetch of the fourth raising a
    [ValueError]-like exception: four pages are returned. *)
Lemma run_parallel_drops_failed_worker_witness :
  run_parallel network_one_broken test_links fourth_dies
    = Some [ "<html>https://www.python.org</html>";
             "<html>https://docs.python.org/3/</html>";
             "<html>https://github.com/python/cpython</html>";
             "<html>https://en.wikipedia.org/wiki/Python_(programming_language)</html>" ] /\
  4 < length test_links.
Proof.
  split; [vm_compute; reflexivity|].
  apply (run_parallel_drops_failed_worker network_one_broken test_links 3
           "https://google.com" (Exn OtherException "label too long") fourth_dies
           [ "<html>https://www.python.org</html>";
             "<html>https://docs.python.org/3/</html>";
             "<html>https://github.com/python/cpython</html>";
             "<html>https://en.wikipedia.org/wiki/Python_(programming_language)</html>" ]);
    vm_compute; reflexivity.
Defined.

(** X4 on the same network: the fifth link is not requested. *)
Lemma run_sequential_stops_at_exception_witness :
  run_sequential network_one_broken test_links []
  = ([ Request "https://www.python.org" 5;
       Request "https://docs.python.org/3/" 5;
       Request "https://github.com/python/cpython" 5;
       Request "https://google.com" 5 ],
     Raised (Exn OtherException "label too long")).
Proof.
  apply (run_sequential_stops_at_exception network_one_broken
           [ "https://www.python.org"; "https://docs.python.org/3/";
             "https://github.com/python/cpython" ]
           "https://google.com"
           [ "https://en.wikipedia.org/wiki/Python_(programming_language)" ]
           (Exn OtherException "label too long") []).
  - repeat constructor; intros e He; vm_compute in He; discriminate He.
  - vm_compute. reflexivity.
  - reflexivity.
Defined.

(** X5 at three links, the third worker appending first and the second
    one last. *)
Lemma run_parallel_any_order_witness :
  exists rs,
    run_parallel network_up ["a"; "b"; "c"] (completing_in [2; 0; 1]) = Some rs /\
    Forall2 (fun v tid =>
               exists link, ["a"; "b"; "c"] !! tid = Some link /\
                            result_for network_up link v)
            rs [2; 0; 1].
Proof.
  apply (run_parallel_any_order network_up ["a"; "b"; "c"] [2; 0; 1]).
  - repeat constructor; intros e He; vm_compute in He; discriminate He.
  - simpl. apply (bool_decide_unpack _). vm_compute. exact I.
Defined.

(** X6 at a workbook whose first product is [2^63]: it is kept as
    [-2^63], and the sum is [-2^63 + 1]. *)
Lemma calculate_new_column_adds_total_witness :
  exists fs' df',
    calculate_new_column sample_basename sample_repr sample_size nothing_raised
      refused_mul refused_sum "big.xlsx" big_fs =
      (fs', Returned (VDict (Summary "big.xlsx" ["Total"]
                               (SInt (-9223372036854775807)) 2 "успешно"))) /\
    pd_read_excel "big.xlsx" fs' = (fs', Returned df') /\
    column df' "Total" = Some (Int64 [-9223372036854775808; 1]%Z) /\
    column df' "Price" = Some (Int64 [4611686018427387904; 1]%Z) /\
    column df' "Quantity" = Some (Int64 [2; 1]%Z) /\
    nrows df' = 2 /\
    ((- 2 ^ 63 <= 9223372036854775809 < 2 ^ 63)%Z ->
     (-9223372036854775807 = 9223372036854775809)%Z).
Proof.
  apply (calculate_new_column_adds_total sample_basename sample_repr sample_size
           nothing_raised refused_mul refused_sum
           big_fs "big.xlsx" (File 5000 (Returned table_big) None) table_big
           [4611686018427387904; 1]%Z [2; 1]%Z).
  - vm_compute. reflexivity.
  - intros H. discriminate H.
  - reflexivity.
  - vm_compute. reflexivity.
  - vm_compute. reflexivity.
  - repeat constructor; unfold int64; lia.
  - repeat constructor; unfold int64; lia.
  - reflexivity.
Defined.

(** X8: processing the first sample workbook leaves the third as it is. *)
Lemma calculate_new_column_other_files_untouched_witness :
  (calculate_new_column sample_basename sample_repr sample_size nothing_raised
     refused_mul refused_sum "excel_files/data1.xlsx" sample_fs).1
    !! "excel_files/data3.xlsx"
  = sample_fs !! "excel_files/data3.xlsx".
Proof.
  apply (calculate_new_column_other_files_untouched sample_basename sample_repr
           sample_size nothing_raised refused_mul refused_sum
           sample_fs "excel_files/data1.xlsx" "excel_files/data3.xlsx").
  intros H. discriminate H.
Defined.

(** X9 at the first sample workbook, workbooks having 4096 bytes. *)
Lemma calculate_new_column_idempotent_witness :
  exists fs1 o,
    calculate_new_column sample_basename sample_repr sample_size nothing_raised
      refused_mul refused_sum "excel_files/data1.xlsx" sample_fs = (fs1, o) /\
    calculate_new_column sample_basename sample_repr sample_size nothing_raised
      refused_mul refused_sum "excel_files/data1.xlsx" fs1 = (fs1, o).
Proof.
  eexists _, _. split; [apply surjective_pairing|].
  apply (calculate_new_column_idempotent sample_basename sample_repr sample_size
           nothing_raised refused_mul refused_sum
           sample_fs "excel_files/data1.xlsx").
  - intros df H. discriminate H.
  - apply surjective_pairing.
Defined.

(** X15 at a file that is not a workbook. *)
Lemma calculate_new_column_returns_witness :
  exists fs' v,
    calculate_new_column sample_basename sample_repr sample_size nothing_raised
      refused_mul refused_sum "excel_files/data2.xlsx" locked_fs = (fs', Returned v).
Proof.
  apply (calculate_new_column_returns sample_basename sample_repr sample_size
           nothing_raised refused_mul refused_sum
           locked_fs "excel_files/data2.xlsx").
  - intros f e Hf Hr. vm_compute in Hf. injection Hf as <-.
    vm_compute in Hr. by injection Hr as <-.
  - intros f e Hf Hw. vm_compute in Hf. injection Hf as <-.
    vm_compute in Hw. by injection Hw as <-.
Defined.

(** On a disk that is empty and a platform that refuses [out.txt], making
    a file of the mixed dictionary fails in the ordinary way only. *)
Lemma mixed_files_ordinary_failures :
  Forall (Files.ordinary_failures posix_dirname nothing_raised xlsx_only ∅)
         mixed_files.*1.
Proof.
  repeat constructor; try (intros e He; discriminate He);
    intros e He; vm_compute in He; try discriminate He; by injection He as <-.
Defined.

Lemma mixed_files_NoDup : NoDup mixed_files.*1.
Proof. apply (bool_decide_unpack _). vm_compute. exact I. Defined.

Lemma test_files_NoDup : NoDup test_files.*1.
Proof. apply (bool_decide_unpack _). vm_compute. exact I. Defined.

(** X10 at [out.txt], which the engine refuses: the answer is [False] and
    nothing is written. *)
Lemma create_sample_excel_file_reports_witness :
  exists fs' ok,
    Files.create_sample_excel_file posix_dirname nothing_raised sample_size xlsx_only
      "out.txt" ∅ = (fs', Returned ok) /\
    (ok = true <->
       nothing_raised (directory_of posix_dirname "out.txt") = None /\
       write_failure xlsx_only ∅ "out.txt" = None) /\
    (ok = true -> fs' = <["out.txt" := Files.written sample_size]> ∅) /\
    (ok = false -> fs' = ∅).
Proof.
  apply (create_sample_excel_file_reports posix_dirname nothing_raised sample_size
           xlsx_only ∅ "out.txt").
  split; [intros e He; discriminate He|].
  intros e He. vm_compute in He. by injection He as <-.
Defined.

(** X11 at the names of the dictionary of [main]. *)
Lemma cleanup_old_files_removes_listed_witness :
  exists fs',
    Files.cleanup_old_files nothing_raised test_files.*1 sample_fs = (fs', Returned tt) /\
    (forall path, path ∈ test_files.*1 -> nothing_raised path = None ->
       fs' !! path = None) /\
    (forall path, path ∈ test_files.*1 -> nothing_raised path <> None ->
       fs' !! path = sample_fs !! path) /\
    (forall path, path ∉ test_files.*1 -> fs' !! path = sample_fs !! path).
Proof.
  apply (cleanup_old_files_removes_listed nothing_raised test_files.*1 sample_fs).
  intros path e Hin He. discriminate He.
Defined.



(** X14 at the first file of the dictionary, on an empty disk. *)
Lemma downloaded_file_is_processed_witness :
  exists fs1 fs2,
    Files.mock_download_file posix_dirname nothing_raised sample_size nothing_raised
      "local_file_1" "excel_files/data1.xlsx" ∅
      = (fs1, Returned (Some "excel_files/data1.xlsx")) /\
    calculate_new_column sample_basename sample_repr sample_size nothing_raised
      refused_mul refused_sum "excel_files/data1.xlsx" fs1 =
      (fs2, Returned (VDict (Summary "excel_files/data1.xlsx" ["Total"] (SInt 1450) 4
                               "успешно"))).
Proof.
  apply (downloaded_file_is_processed sample_basename sample_repr posix_dirname
           nothing_raised sample_size nothing_raised refused_mul refused_sum
           ∅ "local_file_1" "excel_files/data1.xlsx");
    first [done | vm_compute; reflexivity].
Defined.
